(** * DreamLayer: the generation client and the disc-cover compositor

    A shallow embedding of [src/services/dreamLayerAPI.ts] (class
    [DreamLayerAPI]) and of the image compositor service (class
    [ImageCompositor]), with the properties the specification states about
    them.

    Conventions.
    - An [async] function is a computation that ends [Resolved] or
      [Rejected] and leaves a log of the effects it performed (requests
      sent, images requested, console output), in program order.
    - What the browser and the network answer is not in the source: it is a
      record ([network], [browser]) every function takes as its first
      argument.
    - In the compositor JavaScript numbers are read as real numbers, so
      [0.4 * size], [Math.cos] and [Math.PI] are exact; floating-point
      rounding and infinite sizes are outside the model.  A surface is its
      ideal, resolution independent rendering: a colour for every point of
      the plane, with no anti-aliasing.  In the client, a number of a
      request is an exact rational, [NaN] or an infinity. *)

From Stdlib Require Import Reals Lra Lia Bool List String Ascii NArith ZArith QArith.
Import ListNotations.

Set Implicit Arguments.

(** ** Promises: outcomes, effect logs and try/catch *)

(** The values the source throws or rejects with. *)
Inductive js_error : Type :=
| Error (message : string)              (* new Error(message) *)
| TypeError (message : string)          (* thrown by the runtime (fetch, property of null) *)
| SyntaxError (message : string)        (* response.json() on a body that is not JSON *)
| DOMException (name : string)          (* thrown by a DOM method *)
| ImageLoadFailed (src : string).       (* the error event of an <img>, passed to reject by img.onerror *)

Inductive outcome (A : Type) : Type :=
| Resolved (a : A)
| Rejected (e : js_error).
Arguments Resolved {A} a.
Arguments Rejected {A} e.

Section Async.
Variable E : Type.   (* the effects that are logged *)

Definition async (A : Type) : Type := (list E * outcome A)%type.

Definition ret {A} (a : A) : async A := ([], Resolved a).
Definition throw {A} (e : js_error) : async A := ([], Rejected e).
Definition emit (ev : E) : async unit := ([ev], Resolved tt).

Definition bind {A B} (m : async A) (k : A -> async B) : async B :=
  match m with
  | (l, Resolved a) => let (l', o) := k a in (l ++ l', o)
  | (l, Rejected e) => (l, Rejected e)
  end.

(** [try { body } catch (error) { handler }] *)
Definition try_catch {A} (body : async A) (handler : js_error -> async A) : async A :=
  match body with
  | (l, Rejected e) => let (l', o) := handler e in (l ++ l', o)
  | done => done
  end.

Definition effects {A} (m : async A) : list E := fst m.
Definition result {A} (m : async A) : outcome A := snd m.
End Async.

Arguments ret {E A} a.
Arguments throw {E A} e.
Arguments emit {E} ev.
Arguments bind {E A B} m k.
Arguments try_catch {E A} body handler.
Arguments effects {E A} m.
Arguments result {E A} m.

Declare Scope async_scope.
Delimit Scope async_scope with async.
Notation "x <- m ;; k" := (bind m (fun x => k))
  (at level 61, m at next level, right associativity) : async_scope.
Notation "m ;;; k" := (bind m (fun _ => k))
  (at level 61, right associativity) : async_scope.

(** The [||] of JavaScript on an optional field: the default replaces
    [undefined] and every other falsy value. *)
Definition or_default {A} (truthy : A -> bool) (x : option A) (d : A) : A :=
  match x with
  | Some a => if truthy a then a else d
  | None => d
  end.

(** ** The generation client ([DreamLayerAPI]) *)

Module DreamLayerAPI.

Open Scope string_scope.

(** A JavaScript number of a request: [NaN], an infinity or an exact
    rational. *)
Inductive number : Type :=
| NaN
| Infinity (negative : bool)
| Num (q : Q).

(** ToBoolean: [0] (in any writing) and [NaN] are falsy, every other
    number, the infinities included, is truthy; [""] is falsy. *)
Definition number_truthy (n : number) : bool :=
  match n with
  | NaN => false
  | Infinity _ => true
  | Num q => negb (Qeq_bool q 0)
  end.

Definition string_truthy (s : string) : bool :=
  match s with
  | EmptyString => false
  | String _ _ => true
  end.

(** The values [JSON.parse] builds and object literals hold.  An object
    lists its own properties in insertion order, keys distinct. *)
#[local] Set Warnings "-register-all".
Inductive value : Type :=
| VUndefined
| VNull
| VBool (b : bool)
| VNum (n : number)
| VStr (s : string)
| VArr (items : list value)
| VObj (fields : list (string * value)).

Fixpoint lookup (k : string) (fields : list (string * value)) : option value :=
  match fields with
  | [] => None
  | (k', v) :: rest => if String.eqb k k' then Some v else lookup k rest
  end.

(** [v.k] for the keys the source reads ([status], [models]): a
    [TypeError] on [null] and [undefined], the own property of an object,
    [undefined] otherwise. *)
Definition get (v : value) (k : string) : outcome value :=
  match v with
  | VUndefined | VNull =>
      Rejected (TypeError ("Cannot read properties of null or undefined: " ++ k))
  | VObj fields =>
      Resolved (match lookup k fields with Some x => x | None => VUndefined end)
  | _ => Resolved VUndefined
  end.

(** [v === s] for a string literal [s]. *)
Definition strict_eq_string (v : value) (s : string) : bool :=
  match v with
  | VStr s' => String.eqb s' s
  | _ => false
  end.

(** [interface GenerationRequest]: an optional field left out is [None]. *)
Record GenerationRequest : Type := {
  prompt : string;
  negative_prompt : option string;
  checkpoint : option string;
  steps : option number;
  cfg : option number;
  width : option number;
  height : option number;
  batch_size : option number
}.

(** What [fetch] is called with.  [body] is the value whose JSON text is
    sent: [JSON.stringify] itself is not modelled. *)
Record http_request : Type := {
  req_url : string;
  req_method : string;
  req_headers : list (string * string);
  req_body : option value
}.

(** A [Response]: [json] is what [response.json()] settles to. *)
Record response : Type := {
  ok : bool;
  status : N;
  statusText : string;
  json : outcome value;
  blob : list Byte.byte
}.

(** The network: [fetch] rejects (no connection) or resolves with a
    response, whatever its HTTP status. *)
Record network : Type := {
  fetch_answer : http_request -> outcome response
}.

Inductive net_event : Type :=
| Fetch (req : http_request)
| ConsoleError (label : string) (err : js_error).

Definition net_io := async net_event.

Open Scope async_scope.

Definition fetch (net : network) (req : http_request) : net_io response :=
  emit (Fetch req) ;;; ([], fetch_answer net req).

Definition response_json (r : response) : net_io value := ([], json r).

Definition console_error (label : string) (err : js_error) : net_io unit :=
  emit (ConsoleError label err).

Definition get_request (url : string) : http_request :=
  {| req_url := url; req_method := "GET"; req_headers := []; req_body := None |}.

(** The instance: the four fields the constructor fills in. *)
Record client : Type := {
  baseURL : string;
  txt2imgURL : string;
  modelsURL : string;
  imagesURL : string
}.

Definition new (base : string) : client :=
  {| baseURL := base;
     txt2imgURL := base ++ ":5001/api/txt2img";
     modelsURL := base ++ ":5002/api/models";
     imagesURL := base ++ ":5001/api/images" |}.

(** [export default new DreamLayerAPI()] *)
Definition default_client : client := new "http://localhost".

Section ClientMethods.
Variable net : network.
Variable this : client.

Definition getModels : net_io value :=
  try_catch
    (resp <- fetch net (get_request (modelsURL this)) ;;
     data <- response_json resp ;;
     st <- ([], get data "status") ;;
     if strict_eq_string st "success"
     then ([], get data "models")
     else throw (Error "Failed to fetch models"))
    (fun error => console_error "Error fetching models:" error ;;; throw error).

Definition payload (request : GenerationRequest) : value :=
  VObj [
    ("prompt", VStr (prompt request));
    ("negative_prompt",
       VStr (or_default string_truthy (negative_prompt request)
                        "blurry, low quality, bad anatomy"));
    ("checkpoint",
       VStr (or_default string_truthy (checkpoint request)
                        "stable-diffusion-v1-5.safetensors"));
    ("steps", VNum (or_default number_truthy (steps request) (Num 20)));
    ("cfg", VNum (or_default number_truthy (cfg request) (Num 7)));
    ("width", VNum (or_default number_truthy (width request) (Num 300)));
    ("height", VNum (or_default number_truthy (height request) (Num 300)));
    ("batch_size", VNum (or_default number_truthy (batch_size request) (Num 1)))
  ].

Definition txt2img_request (request : GenerationRequest) : http_request :=
  {| req_url := txt2imgURL this;
     req_method := "POST";
     req_headers := [("Content-Type", "application/json")];
     req_body := Some (payload request) |}.

Definition generateImage (request : GenerationRequest) : net_io value :=
  try_catch
    (resp <- fetch net (txt2img_request request) ;;
     data <- response_json resp ;;
     ret data)
    (fun error => console_error "Error generating image:" error ;;; throw error).

Definition getImageURL (filename : string) : string :=
  imagesURL this ++ "/" ++ filename.

Definition downloadImage (filename : string) : net_io (list Byte.byte) :=
  try_catch
    (resp <- fetch net (get_request (getImageURL filename)) ;;
     if negb (ok resp)
     then throw (Error ("Failed to download image: " ++ statusText resp))
     else ret (blob resp))
    (fun error => console_error "Error downloading image:" error ;;; throw error).

Inductive style : Type := gradients | abstract | nature.

Definition prompts (mood : string) (s : style) : string :=
  match s with
  | gradients => "beautiful gradient, " ++ mood ++ ", artistic, 300x300px, square"
  | abstract => "abstract geometric shapes, " ++ mood ++ ", modern art, 300x300px, square"
  | nature => "nature landscape, " ++ mood ++ ", scenic, 300x300px, square"
  end.

(** The request literal [{ prompt }]: every optional field left out. *)
Definition prompt_only (p : string) : GenerationRequest :=
  {| prompt := p; negative_prompt := None; checkpoint := None; steps := None;
     cfg := None; width := None; height := None; batch_size := None |}.

Definition dquote : string := String (ascii_of_nat 34) EmptyString.

Definition generatePlaylistCover
    (s : style) (mood : string) (playlistName : option string) : net_io value :=
  let prompt := prompts mood s in
  match playlistName with
  | Some name =>
      if string_truthy name
      then generateImage
             (prompt_only (prompt ++ ", inspired by " ++ dquote ++ name ++ dquote))
      else generateImage (prompt_only prompt)
  | None => generateImage (prompt_only prompt)
  end.

End ClientMethods.

End DreamLayerAPI.

(** ** The 2D canvas the compositor draws on *)

(** What differs from one engine to the next: the largest side of a square
    canvas that the engine still backs with a bitmap.  A larger canvas can
    be created, but nothing can be read back from it. *)
Class Engine : Type := { canvas_limit : N }.

Module Canvas.

Open Scope R_scope.

Definition point : Type := (R * R)%type.

Record rgb : Type := RGB { red : N; green : N; blue : N }.

(** A pixel is untouched (transparent) or holds an opaque colour; partial
    transparency is not modelled. *)
Inductive pixel : Type :=
| Clear
| Paint (c : rgb).

(** Source-over compositing, the canvas default. *)
Definition over (src dst : pixel) : pixel :=
  match src with
  | Clear => dst
  | Paint _ => src
  end.

Definition Rltb (a b : R) : bool := if Rlt_dec a b then true else false.
Definition Rleb (a b : R) : bool := if Rle_dec a b then true else false.

(** A pixel count as a coordinate. *)
Definition px (n : N) : R := IZR (Z.of_N n).
Coercion px : N >-> R.

Definition Reqb (a b : R) : bool := if Req_dec_T a b then true else false.

(** A decoded bitmap: its natural size and the colour at each point of
    [0, naturalWidth) x [0, naturalHeight). *)
Record image : Type := {
  naturalWidth : N;
  naturalHeight : N;
  sample : point -> pixel
}.

(** [canvas.toDataURL('image/png')]: PNG is lossless, so the URL is read
    as the surface it encodes; a canvas with no pixels gives ["data:,"]. *)
Inductive data_url : Type :=
| DataEmpty
| DataPng (w h : N) (bitmap : point -> pixel).

Inductive image_src : Type :=
| Url (u : string)
| Data (d : data_url).

(** Where the load of an image element stands: not completed, failed,
    or completed with a bitmap. *)
Inductive image_state : Type :=
| Unavailable
| Broken
| Available (im : image).

(** An [HTMLImageElement]: its [src] and the state of its load. *)
Record HTMLImageElement : Type := {
  src : image_src;
  crossOrigin : option string;
  state : image_state
}.

(** The bitmap of an element, once it has one. *)
Definition decoded (el : HTMLImageElement) : option image :=
  match state el with
  | Available im => Some im
  | Unavailable | Broken => None
  end.

(** [ctx.arc(x, y, radius, 0, 2 * Math.PI, counterclockwise)]: a full
    turn, the only arc the source draws. *)
Record arc_t : Type := {
  arc_x : R;
  arc_y : R;
  arc_radius : R;
  counterclockwise : bool
}.

(** The part of the drawing state that [save] pushes and [restore] pops. *)
Record drawing_state : Type := {
  st_fillStyle : rgb;
  st_clip : point -> bool
}.

(** A canvas with its 2D context (the two alias one surface). *)
Record context2d : Type := {
  width : N;
  height : N;
  pixels : point -> pixel;
  fillStyle : rgb;
  clip_region : point -> bool;
  path : list arc_t;
  saved : list drawing_state
}.

Definition black : rgb := RGB 0 0 0.

(** A new canvas: transparent, nothing clipped, empty path. *)
Definition blank (w h : N) : context2d :=
  {| width := w; height := h; pixels := fun _ => Clear; fillStyle := black;
     clip_region := fun _ => true; path := []; saved := [] |}.

Definition in_canvas (c : context2d) (p : point) : bool :=
  Rleb 0 (fst p) && Rltb (fst p) (px (width c)) &&
  Rleb 0 (snd p) && Rltb (snd p) (px (height c)).

(** The rectangle of corner [(x, y)], width [w] and height [h]; a
    negative width or height takes it to the other side of the corner. *)
Definition in_rect (x y w h : R) (p : point) : bool :=
  Rleb (Rmin x (x + w)) (fst p) && Rltb (fst p) (Rmax x (x + w)) &&
  Rleb (Rmin y (y + h)) (snd p) && Rltb (snd p) (Rmax y (y + h)).

Definition dist2 (p : point) (cx cy : R) : R :=
  (fst p - cx) * (fst p - cx) + (snd p - cy) * (snd p - cy).

Definition in_circle (a : arc_t) (p : point) : bool :=
  Rltb (dist2 p (arc_x a) (arc_y a)) (arc_radius a * arc_radius a).

(** How often the path winds around [p]: a clockwise turn counts [+1], a
    counterclockwise one [-1].  The straight joins between consecutive
    arcs of the source's paths lie on one line and enclose nothing. *)
Definition turn (a : arc_t) (p : point) : Z :=
  if in_circle a p then (if counterclockwise a then (-1)%Z else 1%Z) else 0%Z.

Definition winding (pa : list arc_t) (p : point) : Z :=
  fold_right (fun a n => (turn a p + n)%Z) 0%Z pa.

(** The non-zero winding rule, the default of [fill] and [clip]. *)
Definition in_path (pa : list arc_t) (p : point) : bool :=
  negb (winding pa p =? 0)%Z.

Definition with_pixels (c : context2d) (f : point -> pixel) : context2d :=
  {| width := width c; height := height c; pixels := f; fillStyle := fillStyle c;
     clip_region := clip_region c; path := path c; saved := saved c |}.

(** Composite [source] onto the surface where [region] holds, inside the
    canvas and the clip. *)
Definition paint (c : context2d) (region : point -> bool) (source : point -> pixel)
  : context2d :=
  with_pixels c
    (fun p => if in_canvas c p && clip_region c p && region p
              then over (source p) (pixels c p)
              else pixels c p).

Definition set_fillStyle (c : context2d) (col : rgb) : context2d :=
  {| width := width c; height := height c; pixels := pixels c; fillStyle := col;
     clip_region := clip_region c; path := path c; saved := saved c |}.

Definition fillRect (c : context2d) (x y w h : R) : context2d :=
  paint c (in_rect x y w h) (fun _ => Paint (fillStyle c)).

Definition beginPath (c : context2d) : context2d :=
  {| width := width c; height := height c; pixels := pixels c; fillStyle := fillStyle c;
     clip_region := clip_region c; path := []; saved := saved c |}.

(** What [ctx.arc(x, y, radius, 0, 2 * Math.PI, ccw)] adds to the path
    when the radius is not negative: a full turn. *)
Definition add_arc (c : context2d) (x y radius : R) (ccw : bool) : context2d :=
  {| width := width c; height := height c; pixels := pixels c; fillStyle := fillStyle c;
     clip_region := clip_region c;
     path := path c ++ [{| arc_x := x; arc_y := y; arc_radius := radius;
                           counterclockwise := ccw |}];
     saved := saved c |}.

(** [ctx.arc(x, y, radius, 0, 2 * Math.PI, ccw)]: a negative radius is an
    [IndexSizeError]. *)
Definition arc (c : context2d) (x y radius : R) (ccw : bool) : outcome context2d :=
  if Rltb radius 0 then Rejected (DOMException "IndexSizeError")
  else Resolved (add_arc c x y radius ccw).

Definition fill (c : context2d) : context2d :=
  paint c (in_path (path c)) (fun _ => Paint (fillStyle c)).

(** [ctx.clip()]: the clip becomes its intersection with the path. *)
Definition clip (c : context2d) : context2d :=
  {| width := width c; height := height c; pixels := pixels c; fillStyle := fillStyle c;
     clip_region := fun p => clip_region c p && in_path (path c) p;
     path := path c; saved := saved c |}.

Definition save (c : context2d) : context2d :=
  {| width := width c; height := height c; pixels := pixels c; fillStyle := fillStyle c;
     clip_region := clip_region c; path := path c;
     saved := {| st_fillStyle := fillStyle c; st_clip := clip_region c |} :: saved c |}.

Definition restore (c : context2d) : context2d :=
  match saved c with
  | [] => c
  | s :: rest =>
      {| width := width c; height := height c; pixels := pixels c;
         fillStyle := st_fillStyle s; clip_region := st_clip s;
         path := path c; saved := rest |}
  end.

(** The colour an image shows at [p] when it is stretched over the
    rectangle [dw] x [dh] placed at [(dx, dy)]. *)
Definition stretched (im : image) (dx dy dw dh : R) (p : point) : pixel :=
  sample im ((fst p - dx) * px (naturalWidth im) / dw,
             (snd p - dy) * px (naturalHeight im) / dh).

(** What drawing an element that is not broken does to the surface.  An
    element that has not finished loading, or whose bitmap has no pixels,
    is not usable: nothing is drawn. *)
Definition composite (c : context2d) (el : HTMLImageElement) (dx dy dw dh : R)
  : context2d :=
  match decoded el with
  | None => c
  | Some im =>
      if ((naturalWidth im =? 0) || (naturalHeight im =? 0))%N then c
      else paint c (in_rect dx dy dw dh) (stretched im dx dy dw dh)
  end.

(** [ctx.drawImage(image, dx, dy, dw, dh)] with an image element: an
    element whose load failed is an [InvalidStateError]. *)
Definition drawImage (c : context2d) (el : HTMLImageElement) (dx dy dw dh : R)
  : outcome context2d :=
  match state el with
  | Broken => Rejected (DOMException "InvalidStateError")
  | Unavailable | Available _ => Resolved (composite c el dx dy dw dh)
  end.

(** [ctx.drawImage(canvas, dx, dy)] with a canvas as the source, at its
    own size; a source canvas with no pixels is an [InvalidStateError]. *)
Definition drawCanvas (c source : context2d) (dx dy : R) : outcome context2d :=
  if ((width source =? 0) || (height source =? 0))%N
  then Rejected (DOMException "InvalidStateError")
  else Resolved
         (paint c (in_rect dx dy (px (width source)) (px (height source)))
                (fun p => pixels source (fst p - dx, snd p - dy))).

(** [canvas.toDataURL('image/png')]: ["data:,"] for a canvas with no
    pixels and for one beyond what the engine backs with a bitmap. *)
Definition toDataURL {engine : Engine} (c : context2d) : data_url :=
  if ((width c =? 0) || (height c =? 0) ||
      (canvas_limit <? width c) || (canvas_limit <? height c))%N
  then DataEmpty
  else DataPng (width c) (height c) (pixels c).

(** The conversion of a number to an [unsigned long]: the fraction is
    dropped, towards zero, and the whole number taken modulo 2^32. *)
Definition integer_part (r : R) : Z :=
  if Rle_dec 0 r then Int_part r else (- Int_part (- r))%Z.

Definition ToUint32 (r : R) : N := Z.to_N (integer_part r mod 4294967296).

(** Assigning [n] to [canvas.width] or [canvas.height], an
    [unsigned long] that reflects a content attribute: a value above
    2147483647 gives way to the default of the attribute. *)
Definition unsigned_long (default n : N) : N :=
  let m := (n mod 4294967296)%N in
  if (m <=? 2147483647)%N then m else default.

(** The bitmap an image element decodes a data URL to. *)
Definition decode (d : data_url) : option image :=
  match d with
  | DataEmpty => None
  | DataPng w h bm => Some {| naturalWidth := w; naturalHeight := h; sample := bm |}
  end.

End Canvas.

(** ** The disc-cover compositor ([ImageCompositor]) *)

Module ImageCompositor.

Import Canvas.
Open Scope string_scope.
Open Scope R_scope.
Open Scope async_scope.

(** [interface CompositorOptions].  The size is any finite number,
    negative and fractional ones included; [NaN] is falsy and so stands
    with [undefined], as [None]. *)
Record CompositorOptions : Type := {
  discBaseImage : option HTMLImageElement;
  generatedImage : option HTMLImageElement;
  outputSize : option R
}.

(** [options = {}] *)
Definition no_options : CompositorOptions :=
  {| discBaseImage := None; generatedImage := None; outputSize := None |}.

(** The browser the compositor runs in.
    - [image_at u]: the bitmap an [<img>] with [src = u] loads, [None]
      when its [onerror] fires instead;
    - [context_2d]: whether [getContext('2d')] gives a context;
    - [data_url_sync]: the state of the page at the call: whether the
      data URL that the call assigns to an image is already among the
      available images of the page, so that the element is usable at
      once.  It is not on first use: the HTML load algorithm then
      completes the load later, from a microtask, which is why
      [loadImage] waits for [onload].  It is once the same data URL has
      loaded in the page, for one after an earlier call. *)
Record browser : Type := {
  image_at : string -> option image;
  context_2d : bool;
  data_url_sync : bool
}.

Inductive dom_event : Type :=
| ImageRequested (u : string)
| ConsoleWarn (message : string)
| ConsoleError (label : string) (err : js_error).

Definition dom_io := async dom_event.

Definition defaultDiscBase : string := "/disc-bg-new.png".
Definition defaultOutputSize : R := 300.

Definition size_truthy (size : R) : bool := negb (Reqb size 0).

Section CompositorMethods.
Context {engine : Engine}.
Variable env : browser.

(** [new Image()], [crossOrigin = 'anonymous'], [src = u], settled by
    [onload] or [onerror]. *)
Definition loadImage (u : string) : dom_io HTMLImageElement :=
  emit (ImageRequested u) ;;;
  match image_at env u with
  | Some im =>
      ret {| src := Url u; crossOrigin := Some "anonymous"; state := Available im |}
  | None => throw (ImageLoadFailed u)
  end.

(** [canvas.width = w; canvas.height = h; canvas.getContext('2d')] on
    a new canvas element. *)
Definition getContext (w h : R) : option context2d :=
  if context_2d env
  then Some (blank (unsigned_long 300 (ToUint32 w)) (unsigned_long 150 (ToUint32 h)))
  else None.

Definition createCanvas (size : R) : dom_io context2d :=
  match getContext size size with
  | Some ctx => ret ctx
  | None => throw (Error "Could not get canvas context")
  end.

(** [const img = new Image(); img.src = d; return img], with no wait
    for [onload]. *)
Definition image_of_data_url (d : data_url) : HTMLImageElement :=
  {| src := Data d; crossOrigin := None;
     state := if data_url_sync env
              then match decode d with
                   | Some im => Available im
                   | None => Unavailable
                   end
              else Unavailable |}.

Definition light_gray : rgb := RGB 240 240 240.   (* '#f0f0f0' *)
Definition darker_gray : rgb := RGB 136 136 136.  (* '#888888' *)
Definition white : rgb := RGB 255 255 255.        (* '#ffffff' *)
Definition texture_gray : rgb := RGB 102 102 102. (* '#666666' *)

(** One turn of the texture loop of [createSolidDisc]. *)
Definition texture_mark (centerX centerY outerRadius : R)
    (ctx : context2d) (i : nat) : context2d :=
  let angle := (INR i / 20) * 2 * PI in
  let x := centerX + cos angle * (outerRadius * 0.7) in
  let y := centerY + sin angle * (outerRadius * 0.7) in
  fillRect ctx x y 1 1.

(** The surface [createSolidDisc] paints before it turns it into an
    image, for a size that is not negative, so that neither [arc]
    throws. *)
Definition solidDiscSurface (ctx : context2d) (size : R) : context2d :=
  let centerX := size / 2 in
  let centerY := size / 2 in
  let outerRadius := size * 0.4 in
  let innerRadius := size * 0.08 in
  let ctx := set_fillStyle ctx light_gray in
  let ctx := fillRect ctx 0 0 size size in
  let ctx := set_fillStyle ctx darker_gray in
  let ctx := beginPath ctx in
  let ctx := add_arc ctx centerX centerY outerRadius false in
  let ctx := fill ctx in
  let ctx := set_fillStyle ctx white in
  let ctx := beginPath ctx in
  let ctx := add_arc ctx centerX centerY innerRadius false in
  let ctx := fill ctx in
  let ctx := set_fillStyle ctx texture_gray in
  fold_left (texture_mark centerX centerY outerRadius) (seq 0 20) ctx.

(** [private createSolidDisc(size)].  With a negative size the first
    [arc], of radius [size * 0.4], throws; nothing painted before it
    can be seen, the canvas being local. *)
Definition createSolidDisc (size : R) : dom_io HTMLImageElement :=
  ctx <- createCanvas size ;;
  if Rltb (size * 0.4) 0
  then throw (DOMException "IndexSizeError")
  else ret (image_of_data_url (toDataURL (solidDiscSurface ctx size))).

(** The inner [try]/[catch] of [compositeDiscCover]: the configured
    asset, or the solid disc when it does not load. *)
Definition loadDiscBase (size : R) : dom_io HTMLImageElement :=
  try_catch
    (loadImage defaultDiscBase)
    (fun error =>
       emit (ConsoleWarn "Disc base image not found, creating solid disc") ;;;
       createSolidDisc size).

Definition compositeDiscCover (generatedImageUrl : string)
    (options : CompositorOptions) : dom_io data_url :=
  let outputSize := or_default size_truthy (outputSize options) defaultOutputSize in
  ctx <- createCanvas outputSize ;;
  try_catch
    (generatedImage <- loadImage generatedImageUrl ;;
     discBaseImage <- loadDiscBase outputSize ;;
     ctx <- ([], drawImage ctx discBaseImage 0 0 outputSize outputSize) ;;
     let centerX := outputSize / 2 in
     let centerY := outputSize / 2 in
     let outerRadius := outputSize * 0.4 in
     let innerRadius := outputSize * 0.08 in
     tempCtx <- match getContext outputSize outputSize with
                | Some c => ret c
                | None => throw (TypeError "Cannot read properties of null")
                end ;;
     tempCtx <- ([], drawImage tempCtx generatedImage 0 0 outputSize outputSize) ;;
     let ctx := save ctx in
     let ctx := beginPath ctx in
     ctx <- ([], arc ctx centerX centerY outerRadius false) ;;
     ctx <- ([], arc ctx centerX centerY innerRadius true) ;;
     let ctx := clip ctx in
     ctx <- ([], drawCanvas ctx tempCtx 0 0) ;;
     let ctx := restore ctx in
     ret (toDataURL ctx))
    (fun error =>
       emit (ConsoleError "Error compositing disc cover:" error) ;;;
       throw error).

End CompositorMethods.

End ImageCompositor.

(** ** Observations and sample worlds used in the statements *)

Module ClientFacts.

Import DreamLayerAPI.
Open Scope string_scope.

(** The requests a log shows as sent, in order. *)
Fixpoint sent (log : list net_event) : list http_request :=
  match log with
  | [] => []
  | Fetch r :: rest => r :: sent rest
  | ConsoleError _ _ :: rest => sent rest
  end.

(** A property of an object literal. *)
Definition field (k : string) (v : value) : option value :=
  match v with
  | VObj fields => lookup k fields
  | _ => None
  end.

Definition is_zero (n : number) : Prop :=
  match n with
  | Num q => (q == 0)%Q
  | NaN | Infinity _ => False
  end.

(** The claim that every operation turns a non-2xx answer into an error. *)
Definition non_2xx_always_throws : Prop :=
  forall (net : network) (this : client) (resp : response),
    ok resp = false ->
    (fetch_answer net (get_request (modelsURL this)) = Resolved resp ->
     exists e, result (getModels net this) = Rejected e) /\
    (forall request,
       fetch_answer net (txt2img_request this request) = Resolved resp ->
       exists e, result (generateImage net this request) = Rejected e) /\
    (forall filename,
       fetch_answer net (get_request (getImageURL this filename)) = Resolved resp ->
       exists e, result (downloadImage net this filename) = Rejected e).

(** A backend that answers every request with HTTP 500 and the JSON body
    [{status: "error", error: "out of memory"}]. *)
Definition error_body : value :=
  VObj [("status", VStr "error"); ("error", VStr "out of memory")].

Definition http_500 : response :=
  {| ok := false; status := 500%N; statusText := "Internal Server Error";
     json := Resolved error_body; blob := [] |}.

Definition failing_backend : network :=
  {| fetch_answer := fun _ => Resolved http_500 |}.

(** A backend whose models endpoint answers HTTP 200 with
    [{status: "error"}]. *)
Definition models_error : response :=
  {| ok := true; status := 200%N; statusText := "OK";
     json := Resolved (VObj [("status", VStr "error")]); blob := [] |}.

Definition models_error_backend : network :=
  {| fetch_answer := fun _ => Resolved models_error |}.

(** A request with every optional field set to a falsy value. *)
Definition all_falsy : GenerationRequest :=
  {| prompt := "a cat"; negative_prompt := Some EmptyString;
     checkpoint := Some EmptyString; steps := Some (Num 0); cfg := Some (Num 0);
     width := Some (Num 0); height := Some (Num 0); batch_size := Some (Num 0) |}.

End ClientFacts.

Module CompositorFacts.

Import Canvas ImageCompositor.
Open Scope string_scope.
Open Scope R_scope.

(** The size the surface is created with: [options.outputSize || 300]. *)
Definition output_size (options : CompositorOptions) : R :=
  or_default size_truthy (outputSize options) defaultOutputSize.

(** Distance of a point from the centre [(S/2, S/2)] of an [S] x [S]
    surface. *)
Definition from_centre (S : N) (p : point) : R :=
  sqrt (dist2 p (px S / 2) (px S / 2)).

(** What an image shows at [p] once stretched over an [S] x [S] surface;
    an image with no pixels shows nothing. *)
Definition shown (im : image) (S : N) (p : point) : pixel :=
  if ((naturalWidth im =? 0) || (naturalHeight im =? 0))%N then Clear
  else stretched im 0 0 (px S) (px S) p.

(** What a disc base element that is not broken leaves on a new
    [S] x [S] surface when it is drawn over all of it. *)
Definition background (disc : HTMLImageElement) (S : N) : point -> pixel :=
  pixels (composite (blank S S) disc 0 0 (px S) (px S)).

(** The whole sizes for which a canvas is what the code asks for: not
    zero, kept as it is by [canvas.width], and backed by the engine. *)
Definition backed {engine : Engine} (S : N) : bool :=
  (negb (S =? 0) && (S <=? 2147483647) && (S <=? canvas_limit))%N.

(** The engine of the sample worlds. *)
#[export] Instance sample_engine : Engine := {| canvas_limit := 32767 |}.

Definition sized (size : R) : CompositorOptions :=
  {| discBaseImage := None; generatedImage := None; outputSize := Some size |}.


Definition on_surface (S : N) (p : point) : bool := in_canvas (blank S S) p.

(** The top-left corner of the [i]-th texture mark of the solid disc. *)
Definition mark_corner (S : N) (i : nat) : point :=
  (px S / 2 + cos (INR i / 20 * 2 * PI) * (px S * 0.4 * 0.7),
   px S / 2 + sin (INR i / 20 * 2 * PI) * (px S * 0.4 * 0.7)).

Definition in_mark (S : N) (p : point) (i : nat) : bool :=
  in_rect (fst (mark_corner S i)) (snd (mark_corner S i)) 1 1 p.

(** The solid disc in the words of the specification: a light surface, a
    disc of radius [0.4 S], a hole of radius [0.08 S] at the same centre,
    and twenty unit marks over them. *)
Definition solid_disc (S : N) (p : point) : pixel :=
  if on_surface S p then
    if existsb (in_mark S p) (seq 0 20) then Paint texture_gray
    else if Rltb (dist2 p (px S / 2) (px S / 2)) ((px S * 0.08) * (px S * 0.08))
         then Paint white
    else if Rltb (dist2 p (px S / 2) (px S / 2)) ((px S * 0.4) * (px S * 0.4))
         then Paint darker_gray
    else Paint light_gray
  else Clear.

(** The path of the clip: the outer circle clockwise, then the inner
    circle counterclockwise. *)
Definition ring_path (S : N) : list arc_t :=
  [ {| arc_x := px S / 2; arc_y := px S / 2; arc_radius := px S * 0.4;
       counterclockwise := false |};
    {| arc_x := px S / 2; arc_y := px S / 2; arc_radius := px S * 0.08;
       counterclockwise := true |} ].

(** The composite in the words of the specification: the generated image
    on the ring of the clip, the background everywhere else. *)
Definition composited (gen : image) (disc : HTMLImageElement) (S : N) (p : point)
  : pixel :=
  if on_surface S p && in_path (ring_path S) p
  then over (shown gen S p) (background disc S p)
  else background disc S p.

(** Sample bitmaps and browsers. *)
Definition artwork : image :=
  {| naturalWidth := 512; naturalHeight := 512;
     sample := fun _ => Paint (RGB 200 40 90) |}.

Definition disc_asset : image :=
  {| naturalWidth := 600; naturalHeight := 600;
     sample := fun _ => Paint (RGB 20 20 20) |}.

Definition serves (files : list (string * image)) (u : string) : option image :=
  match find (fun f => String.eqb (fst f) u) files with
  | Some f => Some (snd f)
  | None => None
  end.

(** The generated image is served, the disc asset is missing, and the
    page is fresh: the data URL of the solid disc has not loaded in it. *)
Definition browser_without_disc : browser :=
  {| image_at := serves [("cover.png", artwork)];
     context_2d := true; data_url_sync := false |}.

(** A page later on, once the data URL of the solid disc has loaded in
    it, as it has after an earlier call: the loads and the context answer
    as before. *)
Definition once_solid_disc_loaded (env : browser) : browser :=
  {| image_at := image_at env; context_2d := context_2d env; data_url_sync := true |}.

Definition eager_browser_without_disc : browser :=
  once_solid_disc_loaded browser_without_disc.

Definition browser_with_disc : browser :=
  {| image_at := serves [("cover.png", artwork); ("/disc-bg-new.png", disc_asset)];
     context_2d := true; data_url_sync := false |}.

(** As [browser_with_disc], with one more file that the compositor never
    asks for. *)
Definition browser_with_disc_and_more : browser :=
  {| image_at := serves [("cover.png", artwork); ("/disc-bg-new.png", disc_asset);
                         ("other.png", artwork)];
     context_2d := true; data_url_sync := false |}.

(** Nothing is served: every image load fails. *)
Definition browser_offline : browser :=
  {| image_at := serves []; context_2d := true; data_url_sync := false |}.

End CompositorFacts.

(** ** The rest of the two classes, and what the further statements observe *)

Module ClientObservations.

Import DreamLayerAPI.
Open Scope string_scope.

(** What a log shows as written with [console.error], in order. *)
Fixpoint logged (log : list net_event) : list (string * js_error) :=
  match log with
  | [] => []
  | Fetch _ :: rest => logged rest
  | ConsoleError label err :: rest => (label, err) :: logged rest
  end.

(** The own keys of an object, in insertion order. *)
Definition keys (v : value) : list string :=
  match v with
  | VObj fields => map fst fields
  | _ => []
  end.

(** What the backend reads: the value the JSON text of [v] stands for.
    [JSON.stringify] writes [null] for [NaN], for the infinities and for
    an [undefined] item of an array, and leaves out a property that is
    [undefined]. *)
Fixpoint as_sent (v : value) : value :=
  match v with
  | VUndefined => VNull
  | VNum (Num q) => VNum (Num q)
  | VNum NaN | VNum (Infinity _) => VNull
  | VArr items => VArr (map as_sent items)
  | VObj fields =>
      VObj ((fix properties (fs : list (string * value)) : list (string * value) :=
               match fs with
               | [] => []
               | (_, VUndefined) :: rest => properties rest
               | (k, x) :: rest => (k, as_sent x) :: properties rest
               end) fields)
  | VNull | VBool _ | VStr _ => v
  end.

(** The clause [generatePlaylistCover] appends for a playlist name. *)
Definition inspired_by (name : string) : string :=
  ", inspired by " ++ dquote ++ name ++ dquote.

(** A models endpoint that answers [{status: "success"}], with no
    [models] key. *)
Definition success_without_models : response :=
  {| ok := true; status := 200%N; statusText := "OK";
     json := Resolved (VObj [("status", VStr "success")]); blob := [] |}.

Definition backend_without_models : network :=
  {| fetch_answer := fun _ => Resolved success_without_models |}.

End ClientObservations.

Module ImageCompositorRest.

Import Canvas ImageCompositor.
Open Scope string_scope.
Open Scope R_scope.

(** [private drawCircularMask(ctx, image, size, centerX, centerY, radius)];
    when [arc] or [drawImage] throws, [restore] is not reached. *)
Definition drawCircularMask (ctx : context2d) (image : HTMLImageElement)
    (size centerX centerY radius : R) : outcome context2d :=
  let ctx := save ctx in
  let ctx := beginPath ctx in
  match arc ctx centerX centerY radius false with
  | Rejected e => Rejected e
  | Resolved ctx =>
      let ctx := clip ctx in
      match drawImage ctx image 0 0 size size with
      | Resolved ctx => Resolved (restore ctx)
      | Rejected e => Rejected e
      end
  end.

(** The part of the document [downloadImage] touches: the children of
    [document.body], each node with its identity; [fresh] is an identity
    no node has yet. *)
Record anchor : Type := {
  node_id : nat;
  anchor_download : option string;
  anchor_href : option data_url
}.

Record document : Type := {
  fresh : nat;
  body_children : list anchor
}.

Inductive dom_action : Type :=
| Clicked (link : anchor).

(** [document.createElement('a')] *)
Definition createElement (doc : document) : document * anchor :=
  ({| fresh := S (fresh doc); body_children := body_children doc |},
   {| node_id := fresh doc; anchor_download := None; anchor_href := None |}).

Definition appendChild (doc : document) (n : anchor) : document :=
  {| fresh := fresh doc; body_children := body_children doc ++ [n] |}.

(** [document.body.removeChild(n)]: the node itself goes, by identity. *)
Definition removeChild (doc : document) (n : anchor) : document :=
  {| fresh := fresh doc;
     body_children :=
       filter (fun m => negb (Nat.eqb (node_id m) (node_id n))) (body_children doc) |}.

(** [downloadImage(dataUrl, filename = 'playlist-cover.png')]: the
    default stands in for an omitted argument only. *)
Definition downloadImage (doc : document) (dataUrl : data_url)
    (filename : option string) : document * list dom_action :=
  let filename :=
    match filename with Some f => f | None => "playlist-cover.png" end in
  let (doc, link) := createElement doc in
  let link := {| node_id := node_id link; anchor_download := Some filename;
                 anchor_href := anchor_href link |} in
  let link := {| node_id := node_id link; anchor_download := anchor_download link;
                 anchor_href := Some dataUrl |} in
  let doc := appendChild doc link in
  let clicks := [Clicked link] in
  let doc := removeChild doc link in
  (doc, clicks).

(** Every node of the body was made before [fresh]. *)
Definition well_formed (doc : document) : Prop :=
  Forall (fun n => (node_id n < fresh doc)%nat) (body_children doc).

(** Sample worlds. *)
Definition browser_without_context : browser :=
  {| image_at := CompositorFacts.serves [("cover.png", CompositorFacts.artwork)];
     context_2d := false; data_url_sync := false |}.

Definition eager_browser_with_disc : browser :=
  {| image_at := CompositorFacts.serves
                   [("cover.png", CompositorFacts.artwork);
                    ("/disc-bg-new.png", CompositorFacts.disc_asset)];
     context_2d := true; data_url_sync := true |}.

Definition preloaded : HTMLImageElement :=
  {| src := Url "other.png"; crossOrigin := None;
     state := Available CompositorFacts.disc_asset |}.

(** An element whose load failed. *)
Definition broken_image : HTMLImageElement :=
  {| src := Url "missing.png"; crossOrigin := None; state := Broken |}.

Definition options_with_images : CompositorOptions :=
  {| discBaseImage := Some preloaded; generatedImage := Some preloaded;
     outputSize := Some 0 |}.

Definition page : document :=
  {| fresh := 2;
     body_children :=
       [ {| node_id := 0; anchor_download := None; anchor_href := None |};
         {| node_id := 1; anchor_download := Some "playlist-cover.png";
            anchor_href := None |} ] |}.

End ImageCompositorRest.

(** ** Properties of the generation client *)

Module ClientProofs.

Import DreamLayerAPI ClientFacts.
Open Scope string_scope.

(** *** Strings *)

Lemma substring_after_prefix (a b : string) :
  substring (String.length a) (String.length b) (a ++ b) = b.
Proof.
  induction a as [|c a IH]; simpl.
  - induction b as [|c b IHb]; simpl; [reflexivity|].
    now rewrite IHb.
  - exact IH.
Qed.

Lemma append_cancel_l (a b c : string) : a ++ b = a ++ c -> b = c.
Proof.
  induction a as [|x a IH]; simpl; intros H; [exact H|].
  injection H as H. now apply IH.
Qed.

Lemma length_app_string (a b : string) :
  String.length (a ++ b) = (String.length a + String.length b)%nat.
Proof. induction a as [|x a IH]; simpl; [reflexivity | now rewrite IH]. Qed.

Lemma append_assoc_string (a b c : string) : (a ++ b) ++ c = a ++ (b ++ c).
Proof. induction a as [|x a IH]; simpl; [reflexivity | now rewrite IH]. Qed.

(** *** The [||] defaults *)

Lemma or_default_unset {A} (truthy : A -> bool) (d : A) :
  or_default truthy None d = d.
Proof. reflexivity. Qed.

Lemma or_default_falsy {A} (truthy : A -> bool) (a d : A) :
  truthy a = false -> or_default truthy (Some a) d = d.
Proof. intros H. unfold or_default. now rewrite H. Qed.

Lemma or_default_truthy {A} (truthy : A -> bool) (x : option A) (d : A) :
  truthy d = true -> truthy (or_default truthy x d) = true.
Proof.
  intros Hd. destruct x as [a|]; simpl; [|exact Hd].
  destruct (truthy a) eqn:Ha; [exact Ha | exact Hd].
Qed.

Lemma zero_is_falsy (n : number) : is_zero n -> number_truthy n = false.
Proof.
  destruct n as [|b|q]; simpl; [tauto | tauto |].
  intros H. apply Qeq_bool_iff in H. now rewrite H.
Qed.

Lemma truthy_not_zero (n : number) : number_truthy n = true -> ~ is_zero n.
Proof.
  intros H Hz. apply zero_is_falsy in Hz. congruence.
Qed.

(** *** What each method sends *)

Lemma generateImage_sends (net : network) (this : client) (request : GenerationRequest) :
  sent (effects (generateImage net this request)) = [txt2img_request this request].
Proof.
  unfold generateImage, fetch, response_json, console_error. cbn.
  destruct (fetch_answer net _) as [resp|e]; cbn; [|reflexivity].
  destruct (json resp); reflexivity.
Qed.

(** *** How each method settles *)

Lemma generateImage_result (net : network) (this : client) (request : GenerationRequest) :
  result (generateImage net this request) =
  match fetch_answer net (txt2img_request this request) with
  | Resolved resp => json resp
  | Rejected e => Rejected e
  end.
Proof.
  unfold generateImage, fetch, response_json, console_error. cbn.
  destruct (fetch_answer net _) as [resp|e]; cbn; [|reflexivity].
  destruct (json resp); reflexivity.
Qed.

Lemma getModels_result (net : network) (this : client) :
  result (getModels net this) =
  match fetch_answer net (get_request (modelsURL this)) with
  | Resolved resp =>
      match json resp with
      | Resolved data =>
          match get data "status" with
          | Resolved st =>
              if strict_eq_string st "success" then get data "models"
              else Rejected (Error "Failed to fetch models")
          | Rejected e => Rejected e
          end
      | Rejected e => Rejected e
      end
  | Rejected e => Rejected e
  end.
Proof.
  unfold getModels, fetch, response_json, console_error. cbn.
  destruct (fetch_answer net _) as [resp|e]; cbn; [|reflexivity].
  destruct (json resp) as [data|e]; cbn; [|reflexivity].
  destruct (get data "status") as [st|e]; cbn; [|reflexivity].
  destruct (strict_eq_string st "success"); cbn; [|reflexivity].
  destruct (get data "models"); reflexivity.
Qed.

Lemma downloadImage_result (net : network) (this : client) (filename : string) :
  result (downloadImage net this filename) =
  match fetch_answer net (get_request (getImageURL this filename)) with
  | Resolved resp =>
      if ok resp then Resolved (blob resp)
      else Rejected (Error ("Failed to download image: " ++ statusText resp))
  | Rejected e => Rejected e
  end.
Proof.
  unfold downloadImage, fetch, console_error. cbn.
  destruct (fetch_answer net _) as [resp|e]; cbn; [|reflexivity].
  destruct (ok resp); reflexivity.
Qed.

Lemma strict_eq_string_true (v : value) (s : string) :
  strict_eq_string v s = true <-> v = VStr s.
Proof.
  destruct v; simpl; try (split; [discriminate | discriminate]).
  rewrite String.eqb_eq. split; [now intros -> | now intros [= ->]].
Qed.

(** *** The claims about the client *)

(** C3.  [generateImage] sends one request, a POST to the txt2img
    endpoint whose body is the payload; in that payload [prompt] is the
    caller's prompt unchanged, and every optional field the request leaves
    unset holds its documented default: the canned negative prompt, the
    default checkpoint file name, steps 20, cfg 7.0, width 300, height 300,
    batch_size 1. *)
Theorem C3_unset_fields_take_defaults
    (net : network) (this : client) (request : GenerationRequest) :
  let body := payload request in
  sent (effects (generateImage net this request)) =
    [ {| req_url := txt2imgURL this; req_method := "POST";
         req_headers := [("Content-Type", "application/json")];
         req_body := Some body |} ] /\
  field "prompt" body = Some (VStr (prompt request)) /\
  (negative_prompt request = None ->
     field "negative_prompt" body = Some (VStr "blurry, low quality, bad anatomy")) /\
  (checkpoint request = None ->
     field "checkpoint" body = Some (VStr "stable-diffusion-v1-5.safetensors")) /\
  (steps request = None -> field "steps" body = Some (VNum (Num 20))) /\
  (cfg request = None -> field "cfg" body = Some (VNum (Num 7))) /\
  (width request = None -> field "width" body = Some (VNum (Num 300))) /\
  (height request = None -> field "height" body = Some (VNum (Num 300))) /\
  (batch_size request = None -> field "batch_size" body = Some (VNum (Num 1))).
Proof.
  intros body. split; [apply generateImage_sends|].
  subst body. unfold payload, field. cbn [lookup String.eqb Ascii.eqb Bool.eqb].
  repeat split; intros ->; reflexivity.
Qed.

(** C4.  Whenever the backend's answer has a body that parses as JSON,
    [generateImage] resolves with exactly that parsed value, whatever its
    [status] or [error] fields say; it rejects only with the error [fetch]
    rejected with, or with the error [response.json()] rejected with. *)
Theorem C4_generateImage_returns_body_verbatim
    (net : network) (this : client) (request : GenerationRequest) :
  (forall resp data,
     fetch_answer net (txt2img_request this request) = Resolved resp ->
     json resp = Resolved data ->
     result (generateImage net this request) = Resolved data) /\
  (forall e,
     result (generateImage net this request) = Rejected e ->
     fetch_answer net (txt2img_request this request) = Rejected e \/
     exists resp,
       fetch_answer net (txt2img_request this request) = Resolved resp /\
       json resp = Rejected e).
Proof.
  rewrite generateImage_result. split.
  - intros resp data -> ->. reflexivity.
  - intros e. destruct (fetch_answer net _) as [resp|e'].
    + intros H. right. exists resp. now split.
    + intros [= ->]. now left.
Qed.

(** A backend-reported failure comes back as a value: the answer
    [{status: "error", error: "out of memory"}] is what the caller gets. *)
Example generateImage_passes_error_body :
  result (generateImage failing_backend default_client (prompt_only "a cat")) =
  Resolved error_body.
Proof. reflexivity. Qed.

(** C5, as stated, fails: [generateImage] resolves with the body of an
    HTTP 500 answer instead of throwing. *)
Lemma C5_non_2xx_can_be_returned : ~ non_2xx_always_throws.
Proof.
  intros H.
  destruct (H failing_backend default_client http_500 eq_refl) as (_ & Hgen & _).
  destruct (Hgen (prompt_only "a cat") eq_refl) as [e He].
  discriminate He.
Qed.

(** C5, amended.  Only [downloadImage] looks at the HTTP status: on an
    answer that is not [ok] it throws the error
    ["Failed to download image: " + statusText], and it returns the blob
    otherwise.  [generateImage] and [getModels] never read the HTTP
    status: two answers with the same body settle them alike.  In all
    three a rejection of [fetch] reaches the caller as the very error it
    rejected with. *)
Theorem C5_http_status_only_checked_by_downloadImage
    (net : network) (this : client) :
  (forall filename resp,
     fetch_answer net (get_request (getImageURL this filename)) = Resolved resp ->
     result (downloadImage net this filename) =
       if ok resp then Resolved (blob resp)
       else Rejected (Error ("Failed to download image: " ++ statusText resp))) /\
  (forall request resp,
     fetch_answer net (txt2img_request this request) = Resolved resp ->
     result (generateImage net this request) = json resp) /\
  (forall resp data,
     fetch_answer net (get_request (modelsURL this)) = Resolved resp ->
     json resp = Resolved data ->
     result (getModels net this) =
       match get data "status" with
       | Resolved st =>
           if strict_eq_string st "success" then get data "models"
           else Rejected (Error "Failed to fetch models")
       | Rejected e => Rejected e
       end) /\
  (forall e,
     (fetch_answer net (get_request (modelsURL this)) = Rejected e ->
      result (getModels net this) = Rejected e) /\
     (forall request,
        fetch_answer net (txt2img_request this request) = Rejected e ->
        result (generateImage net this request) = Rejected e) /\
     (forall filename,
        fetch_answer net (get_request (getImageURL this filename)) = Rejected e ->
        result (downloadImage net this filename) = Rejected e)).
Proof.
  repeat split.
  - intros filename resp H. rewrite downloadImage_result, H. reflexivity.
  - intros request resp H. rewrite generateImage_result, H. reflexivity.
  - intros resp data H Hj. rewrite getModels_result, H, Hj. reflexivity.
  - intros H. rewrite getModels_result, H. reflexivity.
  - intros request H. rewrite generateImage_result, H. reflexivity.
  - intros filename H. rewrite downloadImage_result, H. reflexivity.
Qed.

(** C6.  When the models endpoint answers with a JSON body, [getModels]
    resolves exactly when the [status] field of the body is the string
    ['success'], and then with the body's [models]; on every other body
    it rejects, with the error ["Failed to fetch models"] when a status
    could be read: no empty or partial list is returned. *)
Theorem C6_getModels_throws_unless_success
    (net : network) (this : client) (resp : response) (data : value)
    (Hfetch : fetch_answer net (get_request (modelsURL this)) = Resolved resp)
    (Hjson : json resp = Resolved data) :
  (forall models,
     result (getModels net this) = Resolved models <->
     get data "status" = Resolved (VStr "success") /\
     get data "models" = Resolved models) /\
  (get data "status" <> Resolved (VStr "success") ->
     exists e, result (getModels net this) = Rejected e) /\
  (forall st,
     get data "status" = Resolved st -> st <> VStr "success" ->
     result (getModels net this) = Rejected (Error "Failed to fetch models")).
Proof.
  rewrite getModels_result, Hfetch, Hjson.
  destruct (get data "status") as [st|e] eqn:Hstatus.
  - destruct (strict_eq_string st "success") eqn:Hs.
    + apply strict_eq_string_true in Hs. subst st. split; [|split].
      * intros models. split; [intros H; now split | intros [_ H]; exact H].
      * intros Hne. now contradiction Hne.
      * intros st [= <-] Hne. now contradiction Hne.
    + assert (Hne : st <> VStr "success").
      { intros Heq. apply strict_eq_string_true in Heq. congruence. }
      split; [|split].
      * intros models. split; [discriminate|].
        intros [[= Heq] _]. contradiction.
      * intros _. eexists. reflexivity.
      * intros st' [= <-] _. reflexivity.
  - split; [|split].
    + intros models. split; [discriminate | intros [H _]; discriminate H].
    + intros _. eexists. reflexivity.
    + intros st H. discriminate H.
Qed.

(** The scenario of the specification: [{status: "error"}] makes
    [getModels] throw. *)
Lemma C6_witness_status_error :
  result (getModels models_error_backend default_client) =
  Rejected (Error "Failed to fetch models").
Proof.
  apply (@C6_getModels_throws_unless_success
           models_error_backend default_client models_error
           (VObj [("status", VStr "error")]) eq_refl eq_refl)
        with (st := VStr "error");
    [reflexivity | discriminate].
Defined.

(** C8.  [getImageURL] is a function of the file name alone (it performs
    no effect) and returns the images endpoint, a slash and the file name;
    the file name is the tail of the result character for character, so
    nothing in it is encoded, and distinct file names give distinct URLs. *)
Theorem C8_getImageURL_concatenates (this : client) (filename : string) :
  getImageURL this filename = imagesURL this ++ "/" ++ filename /\
  substring (String.length (imagesURL this) + 1) (String.length filename)
            (getImageURL this filename) = filename /\
  String.length (getImageURL this filename) =
    (String.length (imagesURL this) + 1 + String.length filename)%nat /\
  (forall other, getImageURL this other = getImageURL this filename -> other = filename).
Proof.
  unfold getImageURL. repeat split.
  - replace (String.length (imagesURL this) + 1)%nat
      with (String.length (imagesURL this ++ "/")).
    + rewrite <- append_assoc_string. apply substring_after_prefix.
    + rewrite length_app_string. reflexivity.
  - rewrite !length_app_string. simpl. lia.
  - intros other H. apply append_cancel_l in H. apply append_cancel_l in H. exact H.
Qed.

(** C10.  An optional field set to a falsy value is replaced by its
    default: a numeric field set to zero (or NaN), a text field set to the
    empty string.  Hence the payload never carries a zero steps, cfg,
    width, height or batch_size, nor an empty negative prompt or
    checkpoint. *)
Theorem C10_falsy_fields_take_defaults
    (net : network) (this : client) (request : GenerationRequest) :
  let body := payload request in
  sent (effects (generateImage net this request)) = [txt2img_request this request] /\
  req_body (txt2img_request this request) = Some body /\
  (negative_prompt request = Some EmptyString ->
     field "negative_prompt" body = Some (VStr "blurry, low quality, bad anatomy")) /\
  (checkpoint request = Some EmptyString ->
     field "checkpoint" body = Some (VStr "stable-diffusion-v1-5.safetensors")) /\
  (forall n, steps request = Some n -> number_truthy n = false ->
     field "steps" body = Some (VNum (Num 20))) /\
  (forall n, cfg request = Some n -> number_truthy n = false ->
     field "cfg" body = Some (VNum (Num 7))) /\
  (forall n, width request = Some n -> number_truthy n = false ->
     field "width" body = Some (VNum (Num 300))) /\
  (forall n, height request = Some n -> number_truthy n = false ->
     field "height" body = Some (VNum (Num 300))) /\
  (forall n, batch_size request = Some n -> number_truthy n = false ->
     field "batch_size" body = Some (VNum (Num 1))) /\
  (forall n, is_zero n -> number_truthy n = false) /\
  (forall k n,
     In k ["steps"; "cfg"; "width"; "height"; "batch_size"] ->
     field k body = Some (VNum n) -> ~ is_zero n) /\
  (forall k,
     In k ["negative_prompt"; "checkpoint"] ->
     field k body <> Some (VStr EmptyString)).
Proof.
  intros body. subst body.
  split; [apply generateImage_sends|]. split; [reflexivity|].
  unfold payload, field. cbn [lookup String.eqb Ascii.eqb Bool.eqb].
  repeat match goal with |- _ /\ _ => split end.
  - intros ->. reflexivity.
  - intros ->. reflexivity.
  - intros n -> Hn. now rewrite (or_default_falsy _ _ _ Hn).
  - intros n -> Hn. now rewrite (or_default_falsy _ _ _ Hn).
  - intros n -> Hn. now rewrite (or_default_falsy _ _ _ Hn).
  - intros n -> Hn. now rewrite (or_default_falsy _ _ _ Hn).
  - intros n -> Hn. now rewrite (or_default_falsy _ _ _ Hn).
  - exact zero_is_falsy.
  - intros k n Hk Hf. apply truthy_not_zero.
    simpl in Hk.
    repeat (destruct Hk as [<-|Hk]; [cbn in Hf; injection Hf as <-;
                                     now apply or_default_truthy|]).
    contradiction.
  - intros k Hk Hf. simpl in Hk.
    assert (Hs : forall x d, string_truthy d = true ->
                             or_default string_truthy x d <> EmptyString).
    { intros x d Hd Heq. pose proof (@or_default_truthy _ string_truthy x d Hd) as Ht.
      rewrite Heq in Ht. discriminate Ht. }
    repeat (destruct Hk as [<-|Hk]; [cbn in Hf; injection Hf as Hf;
                                     now apply Hs in Hf|]).
    contradiction.
Qed.

(** The scenario of the specification for a playlist cover: style
    [gradients], mood [calm], playlist name [Late Night]. *)
Example playlist_cover_prompt (net : network) :
  sent (effects (generatePlaylistCover net default_client gradients "calm"
                   (Some "Late Night"))) =
  [txt2img_request default_client
     (prompt_only ("beautiful gradient, calm, artistic, 300x300px, square, inspired by "
                   ++ dquote ++ "Late Night" ++ dquote))].
Proof. apply generateImage_sends. Qed.

(** The request with every optional field falsy is sent as the request
    with every optional field unset. *)
Example all_falsy_sent_as_defaults :
  payload all_falsy = payload (prompt_only "a cat").
Proof. reflexivity. Qed.

End ClientProofs.

(** ** Properties of the compositor *)

Module CompositorProofs.

Import Canvas ImageCompositor CompositorFacts.
Open Scope string_scope.
Open Scope R_scope.

Section AnyEngine.
Context {engine : Engine}.

(** *** Comparisons of reals as booleans *)

Lemma Rltb_true (a b : R) : a < b -> Rltb a b = true.
Proof. intros H. unfold Rltb. destruct (Rlt_dec a b); [reflexivity | contradiction]. Qed.

Lemma Rltb_false (a b : R) : b <= a -> Rltb a b = false.
Proof. intros H. unfold Rltb. destruct (Rlt_dec a b); [lra | reflexivity]. Qed.

Lemma Rleb_true (a b : R) : a <= b -> Rleb a b = true.
Proof. intros H. unfold Rleb. destruct (Rle_dec a b); [reflexivity | contradiction]. Qed.

Lemma Rleb_false (a b : R) : b < a -> Rleb a b = false.
Proof. intros H. unfold Rleb. destruct (Rle_dec a b); [lra | reflexivity]. Qed.

(** *** Sizes *)

Lemma Reqb_true (a b : R) : a = b -> Reqb a b = true.
Proof. intros H. unfold Reqb. destruct (Req_dec_T a b); [reflexivity | contradiction]. Qed.

Lemma Reqb_false (a b : R) : a <> b -> Reqb a b = false.
Proof. intros H. unfold Reqb. destruct (Req_dec_T a b); [contradiction | reflexivity]. Qed.

Lemma output_size_not_zero (options : CompositorOptions) :
  output_size options <> 0.
Proof.
  unfold output_size, or_default, size_truthy, defaultOutputSize.
  destruct (outputSize options) as [size|]; [|lra].
  unfold Reqb. destruct (Req_dec_T size 0); simpl; [lra | assumption].
Qed.

(** The size in force is the size given unless that is zero or missing. *)
Lemma output_size_sized (size : R) : size <> 0 -> output_size (sized size) = size.
Proof.
  intros H. unfold output_size, or_default, sized, size_truthy. cbn [outputSize].
  now rewrite (Reqb_false H).
Qed.

Lemma px_nonneg (S : N) : 0 <= px S.
Proof. unfold px. apply IZR_le. lia. Qed.

(** A whole number is its own integer part. *)
Lemma integer_part_px (S : N) : integer_part (px S) = Z.of_N S.
Proof.
  unfold integer_part. destruct (Rle_dec 0 (px S)) as [_|H].
  - symmetry. apply Int_part_spec. unfold px. lra.
  - contradiction H. apply px_nonneg.
Qed.

Lemma ToUint32_px (S : N) : ToUint32 (px S) = (S mod 4294967296)%N.
Proof.
  unfold ToUint32. rewrite integer_part_px.
  change 4294967296%Z with (Z.of_N 4294967296).
  rewrite <- N2Z.inj_mod. apply N2Z.id.
Qed.

Lemma px_positive (S : N) : (S <> 0)%N -> 0 < px S.
Proof. intros H. unfold px. apply IZR_lt. lia. Qed.

Lemma nonzero_dims (S : N) : (S <> 0)%N -> ((S =? 0) || (S =? 0))%N = false.
Proof. intros H. apply N.eqb_neq in H. now rewrite H. Qed.

(** A backed size is the size of the canvas made for it, and the canvas
    can be read back. *)
Lemma kept_size (S : N) :
  (S <> 0)%N -> (S <= 2147483647)%N ->
  unsigned_long 300 (ToUint32 (px S)) = S /\ unsigned_long 150 (ToUint32 (px S)) = S.
Proof.
  intros HS Hlong.
  assert (Hmod : (S mod 4294967296 = S)%N) by (apply N.mod_small; lia).
  unfold unsigned_long. cbn zeta. rewrite ToUint32_px, !Hmod.
  apply N.leb_le in Hlong. now rewrite Hlong.
Qed.

Lemma backed_kept (S : N) : backed S = true -> (S <> 0)%N /\ (S <= 2147483647)%N.
Proof.
  unfold backed. intros H.
  apply andb_true_iff in H. destruct H as [H _].
  apply andb_true_iff in H. destruct H as [Hzero Hlong].
  apply negb_true_iff, N.eqb_neq in Hzero. apply N.leb_le in Hlong. now split.
Qed.

Lemma backed_size (S : N) :
  backed S = true ->
  (S <> 0)%N /\
  unsigned_long 300 (ToUint32 (px S)) = S /\
  unsigned_long 150 (ToUint32 (px S)) = S /\
  (canvas_limit <? S)%N = false.
Proof.
  unfold backed. intros H.
  apply andb_true_iff in H. destruct H as [H Hlimit].
  apply andb_true_iff in H. destruct H as [Hzero Hlong].
  apply negb_true_iff, N.eqb_neq in Hzero.
  apply N.leb_le in Hlong. apply N.leb_le in Hlimit.
  assert (Hmod : (S mod 4294967296 = S)%N) by (apply N.mod_small; lia).
  unfold unsigned_long. cbn zeta. rewrite ToUint32_px, !Hmod.
  assert (Hle : (S <=? 2147483647)%N = true) by now apply N.leb_le.
  rewrite Hle. repeat split; try assumption. apply N.ltb_ge. exact Hlimit.
Qed.

Lemma toDataURL_backed (c : context2d) (S : N) :
  backed S = true -> width c = S -> height c = S ->
  toDataURL c = DataPng S S (pixels c).
Proof.
  intros Hb Hw Hh. destruct (backed_size _ Hb) as (HS & _ & _ & Hlim).
  unfold toDataURL. rewrite Hw, Hh, (nonzero_dims HS), Hlim. reflexivity.
Qed.

(** *** Distances and the annulus *)

Lemma dist2_nonneg (p : point) (cx cy : R) : 0 <= dist2 p cx cy.
Proof.
  unfold dist2.
  pose proof (Rle_0_sqr (fst p - cx)) as Hx.
  pose proof (Rle_0_sqr (snd p - cy)) as Hy.
  unfold Rsqr in Hx, Hy. lra.
Qed.


Lemma from_centre_gt (S : N) (p : point) (r : R) :
  0 <= r -> r < from_centre S p -> r * r < dist2 p (px S / 2) (px S / 2).
Proof.
  unfold from_centre. intros Hr H.
  pose proof (dist2_nonneg p (px S / 2) (px S / 2)) as Hd.
  rewrite <- (sqrt_sqrt _ Hd). apply Rmult_le_0_lt_compat; lra.
Qed.

(** The clip region is the outer disc minus the inner disc. *)
Lemma ring_path_is_annulus (S : N) (p : point) :
  in_path (ring_path S) p =
  Rltb (dist2 p (px S / 2) (px S / 2)) ((px S * 0.4) * (px S * 0.4)) &&
  negb (Rltb (dist2 p (px S / 2) (px S / 2)) ((px S * 0.08) * (px S * 0.08))).
Proof.
  unfold in_path, winding, ring_path, turn, in_circle. simpl.
  set (d := dist2 p (px S / 2) (px S / 2)).
  unfold Rltb.
  destruct (Rlt_dec d (px S * 0.4 * (px S * 0.4))) as [Ho|Ho];
    destruct (Rlt_dec d (px S * 0.08 * (px S * 0.08))) as [Hi|Hi];
    try reflexivity.
  exfalso. apply Ho. nra.
Qed.


Lemma outside_disc_not_clipped_in (S : N) (p : point) :
  0.4 * px S < from_centre S p -> in_path (ring_path S) p = false.
Proof.
  intros H. assert (Hs : 0 <= px S) by (unfold px; apply IZR_le; lia).
  apply from_centre_gt in H; [|lra]. rewrite ring_path_is_annulus.
  rewrite (Rltb_false (b := px S * 0.4 * (px S * 0.4))) by nra.
  reflexivity.
Qed.




(** *** Drawing keeps the size, the clip and the fill style *)

Lemma composite_frame (c : context2d) (el : HTMLImageElement) (dx dy dw dh : R) :
  width (composite c el dx dy dw dh) = width c /\
  height (composite c el dx dy dw dh) = height c /\
  clip_region (composite c el dx dy dw dh) = clip_region c /\
  fillStyle (composite c el dx dy dw dh) = fillStyle c /\
  saved (composite c el dx dy dw dh) = saved c.
Proof.
  unfold composite. destruct (decoded el) as [im|]; [|now repeat split].
  destruct ((naturalWidth im =? 0) || (naturalHeight im =? 0))%N; now repeat split.
Qed.

(** An element that is not broken is drawn without an error. *)
Lemma drawImage_not_broken (c : context2d) (el : HTMLImageElement) (dx dy dw dh : R) :
  state el <> Broken ->
  drawImage c el dx dy dw dh = Resolved (composite c el dx dy dw dh).
Proof.
  intros H. unfold drawImage. destruct (state el); [reflexivity | | reflexivity].
  now contradiction H.
Qed.

(** A rectangle of width and height that are not negative lies to the
    right of and below its corner. *)
Lemma in_rect_nonneg (x y w h : R) (p : point) :
  0 <= w -> 0 <= h ->
  in_rect x y w h p =
  Rleb x (fst p) && Rltb (fst p) (x + w) && Rleb y (snd p) && Rltb (snd p) (y + h).
Proof.
  intros Hw Hh. unfold in_rect.
  rewrite (Rmin_left x (x + w)), (Rmax_right x (x + w)) by lra.
  rewrite (Rmin_left y (y + h)), (Rmax_right y (y + h)) by lra.
  reflexivity.
Qed.

Lemma in_rect_origin (w h : N) (p : point) :
  in_rect 0 0 (px w) (px h) p = in_canvas (blank w h) p.
Proof.
  rewrite in_rect_nonneg by apply px_nonneg.
  unfold in_canvas. simpl. now rewrite !Rplus_0_l.
Qed.

(** An arc of a radius that is not negative is added to the path. *)
Lemma arc_nonneg (c : context2d) (x y radius : R) (ccw : bool) :
  0 <= radius -> arc c x y radius ccw = Resolved (add_arc c x y radius ccw).
Proof. intros H. unfold arc. now rewrite Rltb_false. Qed.

Lemma arc_negative (c : context2d) (x y radius : R) (ccw : bool) :
  radius < 0 -> arc c x y radius ccw = Rejected (DOMException "IndexSizeError").
Proof. intros H. unfold arc. now rewrite Rltb_true. Qed.

Lemma in_canvas_by_size (c c' : context2d) (p : point) :
  width c = width c' -> height c = height c' -> in_canvas c p = in_canvas c' p.
Proof. intros Hw Hh. unfold in_canvas. now rewrite Hw, Hh. Qed.

Lemma point_minus_origin (p : point) : (fst p - 0, snd p - 0) = p.
Proof. destruct p as [x y]. simpl. now rewrite !Rminus_0_r. Qed.

(** The scratch surface shows the generated image wherever it has
    pixels. *)
Lemma scratch_pixels (S : N) (gen : image) (u : string) (p : point) :
  on_surface S p = true ->
  pixels (composite (blank S S)
            {| src := Url u; crossOrigin := Some "anonymous"; state := Available gen |}
            0 0 (px S) (px S)) p = shown gen S p.
Proof.
  intros Hp. unfold composite, shown. simpl.
  destruct ((naturalWidth gen =? 0) || (naturalHeight gen =? 0))%N; [reflexivity|].
  simpl. rewrite in_rect_origin. fold (on_surface S p). rewrite Hp. simpl.
  destruct (stretched gen 0 0 (px S) (px S) p); reflexivity.
Qed.

(** *** A run of [compositeDiscCover] that reaches the end *)

Lemma compositeDiscCover_run_kept
    (env : browser) (url : string) (options : CompositorOptions)
    (gen : image) (log : list dom_event) (disc : HTMLImageElement) (S : N) :
  output_size options = px S ->
  (S <> 0)%N -> (S <= 2147483647)%N ->
  context_2d env = true ->
  image_at env url = Some gen ->
  loadDiscBase env S = (log, Resolved disc) ->
  state disc <> Broken ->
  exists c,
    compositeDiscCover env url options =
      (ImageRequested url :: log, Resolved (toDataURL c)) /\
    width c = S /\ height c = S /\
    forall p, pixels c p = composited gen disc S p.
Proof.
  intros Hwhole HS Hlong Hctx Hgen Hdisc Hok.
  destruct (kept_size HS Hlong) as (Hw300 & Hh150).
  pose proof (px_nonneg S) as Hs.
  unfold compositeDiscCover. fold (output_size options). rewrite Hwhole.
  unfold createCanvas, getContext, loadImage. rewrite Hctx, Hgen, Hw300, Hh150.
  cbn -[drawImage composite drawCanvas toDataURL restore clip arc add_arc beginPath
        save px blank].
  rewrite Hdisc.
  cbn -[drawImage composite drawCanvas toDataURL restore clip arc add_arc beginPath
        save px blank].
  rewrite (@drawImage_not_broken _ disc _ _ _ _ Hok).
  cbn -[composite drawCanvas toDataURL restore clip arc add_arc beginPath save px blank].
  rewrite (arc_nonneg _ _ _ false) by lra.
  cbn -[composite drawCanvas toDataURL restore clip arc add_arc beginPath save px blank].
  rewrite (arc_nonneg _ _ _ true) by lra.
  cbn -[composite drawCanvas toDataURL restore clip arc add_arc beginPath save px blank].
  unfold drawCanvas.
  destruct (composite_frame (blank S S)
              {| src := Url url; crossOrigin := Some "anonymous"; state := Available gen |}
              0 0 (px S) (px S)) as (Hw & Hh & _).
  rewrite Hw, Hh. cbn [width height blank]. rewrite (nonzero_dims HS).
  cbn -[composite toDataURL restore clip arc add_arc beginPath save px blank paint].
  destruct (composite_frame (blank S S) disc 0 0 (px S) (px S))
    as (Hdw & Hdh & Hdc & _).
  rewrite app_nil_r. eexists. split; [reflexivity|].
  split; [cbn -[composite px blank in_rect in_path in_canvas]; assumption|].
  split; [cbn -[composite px blank in_rect in_path in_canvas]; assumption|].
  intros p. cbn -[composite px blank in_rect in_path in_canvas].
  rewrite (@in_canvas_by_size _ (blank S S) p) by (cbn; assumption).
  rewrite Hdc, in_rect_origin, point_minus_origin.
  fold (ring_path S). fold (on_surface S p). fold (background disc S).
  unfold composited. cbn [clip_region blank andb].
  destruct (on_surface S p) eqn:Hp; [|reflexivity].
  rewrite (@scratch_pixels S gen url p Hp).
  destruct (in_path (ring_path S) p); reflexivity.
Qed.

Lemma compositeDiscCover_run
    (env : browser) (url : string) (options : CompositorOptions)
    (gen : image) (log : list dom_event) (disc : HTMLImageElement) (S : N) :
  output_size options = px S ->
  backed S = true ->
  context_2d env = true ->
  image_at env url = Some gen ->
  loadDiscBase env S = (log, Resolved disc) ->
  state disc <> Broken ->
  exists out,
    compositeDiscCover env url options =
      (ImageRequested url :: log, Resolved (DataPng S S out)) /\
    forall p, out p = composited gen disc S p.
Proof.
  intros Hwhole Hback Hctx Hgen Hdisc Hok.
  destruct (backed_kept _ Hback) as (HS & Hlong).
  destruct (@compositeDiscCover_run_kept env url options gen log disc S
              Hwhole HS Hlong Hctx Hgen Hdisc Hok) as (c & Hrun & Hw & Hh & Hpix).
  exists (pixels c). split; [|exact Hpix].
  now rewrite Hrun, (@toDataURL_backed c S Hback Hw Hh).
Qed.


(** *** The disc base: the asset, or the solid disc *)

Lemma loadDiscBase_asset (env : browser) (S : N) (im : image) :
  image_at env defaultDiscBase = Some im ->
  loadDiscBase env S =
    ([ImageRequested defaultDiscBase],
     Resolved {| src := Url defaultDiscBase; crossOrigin := Some "anonymous";
                 state := Available im |}).
Proof. intros H. unfold loadDiscBase, loadImage. rewrite H. reflexivity. Qed.

Lemma loadDiscBase_fallback (env : browser) (S : N) :
  backed S = true ->
  image_at env defaultDiscBase = None ->
  context_2d env = true ->
  loadDiscBase env S =
    ([ImageRequested defaultDiscBase;
      ConsoleWarn "Disc base image not found, creating solid disc"],
     Resolved (image_of_data_url env (toDataURL (solidDiscSurface (blank S S) S)))).
Proof.
  intros Hback H Hctx. destruct (backed_size _ Hback) as (_ & Hw & Hh & _).
  pose proof (px_nonneg S) as Hs.
  unfold loadDiscBase, loadImage, createSolidDisc, createCanvas, getContext.
  rewrite H, Hctx, Hw, Hh, (Rltb_false (a := px S * 0.4)) by lra. reflexivity.
Qed.

Lemma image_of_data_url_not_broken (env : browser) (d : data_url) :
  state (image_of_data_url env d) <> Broken.
Proof.
  unfold image_of_data_url. cbn [state].
  destruct (data_url_sync env); [|discriminate].
  destruct (decode d); discriminate.
Qed.


(** *** The solid disc *)

Lemma fillRect_frame (c : context2d) (x y w h : R) :
  width (fillRect c x y w h) = width c /\
  height (fillRect c x y w h) = height c /\
  clip_region (fillRect c x y w h) = clip_region c /\
  fillStyle (fillRect c x y w h) = fillStyle c.
Proof. now repeat split. Qed.

(** The texture loop paints the fill style on the marks it visits and
    leaves every other point as it was. *)
Lemma texture_loop_pixels (cx cy r : R) (marks : list nat) :
  forall (c : context2d) (p : point),
    let c' := fold_left (texture_mark cx cy r) marks c in
    width c' = width c /\ height c' = height c /\
    pixels c' p =
      if in_canvas c p && clip_region c p &&
         existsb (fun i =>
                    in_rect (cx + cos (INR i / 20 * 2 * PI) * (r * 0.7))
                            (cy + sin (INR i / 20 * 2 * PI) * (r * 0.7)) 1 1 p)
                 marks
      then Paint (fillStyle c)
      else pixels c p.
Proof.
  induction marks as [|i marks IH]; intros c p; cbn zeta.
  - simpl. rewrite andb_false_r. now repeat split.
  - cbn [fold_left existsb].
    destruct (IH (texture_mark cx cy r c i) p) as (Hw & Hh & Hp).
    cbn zeta in Hw, Hh, Hp. rewrite Hw, Hh, Hp.
    split; [reflexivity|]. split; [reflexivity|].
    unfold texture_mark at 1 2 3 4. cbn zeta.
    rewrite (@in_canvas_by_size (fillRect c _ _ 1 1) c p) by reflexivity.
    cbn [fillRect paint with_pixels clip_region fillStyle pixels over].
    destruct (in_canvas c p); [|reflexivity].
    destruct (clip_region c p); [|reflexivity].
    cbn [andb].
    destruct (in_rect _ _ 1 1 p); cbn [orb];
      [destruct (existsb _ marks); reflexivity | reflexivity].
Qed.

Lemma single_turn_path (x y r : R) (p : point) :
  in_path [{| arc_x := x; arc_y := y; arc_radius := r; counterclockwise := false |}] p =
  in_circle {| arc_x := x; arc_y := y; arc_radius := r; counterclockwise := false |} p.
Proof.
  unfold in_path, winding, turn. simpl.
  destruct (in_circle _ p); reflexivity.
Qed.

(** The surface [createSolidDisc] encodes is the solid disc of the
    specification, on an [S] x [S] surface. *)
Lemma solidDiscSurface_is_solid_disc (S : N) :
  width (solidDiscSurface (blank S S) S) = S /\
  height (solidDiscSurface (blank S S) S) = S /\
  forall p, pixels (solidDiscSurface (blank S S) S) p = solid_disc S p.
Proof.
  unfold solidDiscSurface. cbn zeta.
  match goal with
  | |- context [fold_left ?f ?l ?c] =>
      pose proof (fun p => @texture_loop_pixels (px S / 2) (px S / 2) (px S * 0.4)
                             (seq 0 20) c p) as H
  end.
  cbn zeta in H.
  split; [exact (proj1 (H (0, 0)))|].
  split; [exact (proj1 (proj2 (H (0, 0))))|].
  intros p. destruct (H p) as (_ & _ & Hp). rewrite Hp. clear H Hp.
  unfold solid_disc, in_mark, mark_corner. cbn [fst snd].
  rewrite (@in_canvas_by_size _ (blank S S) p) by reflexivity.
  fold (on_surface S p).
  set (marked := existsb _ (seq 0 20)). clearbody marked.
  cbn -[in_rect in_path in_canvas px Rltb Rleb on_surface].
  rewrite in_rect_origin. unfold on_surface, in_canvas.
  cbn -[in_path px Rltb Rleb].
  set (inside := Rleb 0 (fst p) && Rltb (fst p) (px S) &&
                 Rleb 0 (snd p) && Rltb (snd p) (px S)).
  rewrite !single_turn_path. unfold in_circle. cbn [arc_x arc_y arc_radius].
  destruct inside; [|reflexivity]. cbn [andb].
  destruct marked; [reflexivity|].
  destruct (Rltb (dist2 p (px S / 2) (px S / 2)) (px S * 0.08 * (px S * 0.08)));
    [reflexivity|].
  destruct (Rltb (dist2 p (px S / 2) (px S / 2)) (px S * 0.4 * (px S * 0.4)));
    reflexivity.
Qed.

Lemma toDataURL_solid_disc (S : N) :
  backed S = true ->
  toDataURL (solidDiscSurface (blank S S) S) =
  DataPng S S (pixels (solidDiscSurface (blank S S) S)).
Proof.
  intros HS. destruct (solidDiscSurface_is_solid_disc S) as (Hw & Hh & _).
  now apply toDataURL_backed.
Qed.

Lemma stretched_same_size (im : image) (S : N) (p : point) :
  (S <> 0)%N -> naturalWidth im = S -> naturalHeight im = S ->
  stretched im 0 0 (px S) (px S) p = sample im p.
Proof.
  intros HS Hw Hh. unfold stretched. rewrite Hw, Hh.
  pose proof (px_positive HS) as Hpos.
  replace ((fst p - 0) * px S / px S) with (fst p) by (field; lra).
  replace ((snd p - 0) * px S / px S) with (snd p) by (field; lra).
  now destruct p.
Qed.

(** In a page where the data URL of the solid disc is available, the
    background layer of the fallback is the solid disc. *)
Lemma background_solid_disc_eager (env : browser) (S : N) (p : point) :
  data_url_sync env = true -> backed S = true ->
  background (image_of_data_url env (toDataURL (solidDiscSurface (blank S S) S))) S p =
  solid_disc S p.
Proof.
  intros Hsync Hback. rewrite (toDataURL_solid_disc _ Hback).
  destruct (backed_size _ Hback) as (HS & _).
  unfold background, image_of_data_url, composite, decoded. cbn [state].
  rewrite Hsync.
  cbn [decode naturalWidth naturalHeight]. rewrite (nonzero_dims HS).
  cbn [paint with_pixels pixels blank clip_region].
  rewrite in_rect_origin. fold (on_surface S p).
  destruct (solidDiscSurface_is_solid_disc S) as (_ & _ & Hpix).
  destruct (on_surface S p) eqn:Hp; cbn [andb].
  - rewrite stretched_same_size by (assumption || reflexivity).
    cbn [sample]. rewrite Hpix. destruct (solid_disc S p); reflexivity.
  - unfold solid_disc. now rewrite Hp.
Qed.

(** Under the HTML load algorithm the element is not usable yet, and
    [drawImage] leaves the background layer untouched. *)
Lemma background_solid_disc_pending (env : browser) (d : data_url) (S : N) (p : point) :
  data_url_sync env = false ->
  background (image_of_data_url env d) S p = Clear.
Proof.
  intros Hsync. unfold background, image_of_data_url, composite, decoded.
  cbn [state]. rewrite Hsync. reflexivity.
Qed.

(** *** The texture marks *)

Lemma mark_corner_on_ring (S : N) (i : nat) :
  dist2 (mark_corner S i) (px S / 2) (px S / 2) =
  (0.7 * (0.4 * px S)) * (0.7 * (0.4 * px S)).
Proof.
  unfold dist2, mark_corner. cbn [fst snd].
  pose proof (sin2_cos2 (INR i / 20 * 2 * PI)) as H. unfold Rsqr in H.
  set (c := cos _) in *. set (s := sin _) in *.
  replace (px S / 2 + c * (px S * 0.4 * 0.7) - px S / 2) with (c * (px S * 0.4 * 0.7)) by ring.
  replace (px S / 2 + s * (px S * 0.4 * 0.7) - px S / 2) with (s * (px S * 0.4 * 0.7)) by ring.
  replace (c * (px S * 0.4 * 0.7) * (c * (px S * 0.4 * 0.7)) +
           s * (px S * 0.4 * 0.7) * (s * (px S * 0.4 * 0.7)))
    with ((s * s + c * c) * ((px S * 0.4 * 0.7) * (px S * 0.4 * 0.7))) by ring.
  rewrite H. lra.
Qed.

Lemma mark_corner_from_centre (S : N) (i : nat) :
  from_centre S (mark_corner S i) = 0.7 * (0.4 * px S).
Proof.
  unfold from_centre. rewrite mark_corner_on_ring. apply sqrt_square.
  assert (0 <= px S) by (unfold px; apply IZR_le; lia). lra.
Qed.

(** Each mark is one twentieth of a turn after the one before. *)
Lemma mark_angle_step (i : nat) :
  INR (Datatypes.S i) / 20 * 2 * PI - INR i / 20 * 2 * PI = 2 * PI / 20.
Proof. rewrite S_INR. field. Qed.

(** Two marks are apart by the chord of the angle between them. *)
Lemma mark_chord (S : N) (i j : nat) :
  dist2 (mark_corner S j) (fst (mark_corner S i)) (snd (mark_corner S i)) =
  2 * ((0.7 * (0.4 * px S)) * (0.7 * (0.4 * px S))) *
  (1 - cos (INR j / 20 * 2 * PI - INR i / 20 * 2 * PI)).
Proof.
  rewrite cos_minus.
  unfold dist2, mark_corner. cbn [fst snd].
  pose proof (sin2_cos2 (INR i / 20 * 2 * PI)) as H0.
  pose proof (sin2_cos2 (INR j / 20 * 2 * PI)) as H1.
  unfold Rsqr in H0, H1.
  set (c0 := cos (INR i / 20 * 2 * PI)) in *.
  set (s0 := sin (INR i / 20 * 2 * PI)) in *.
  set (c1 := cos (INR j / 20 * 2 * PI)) in *.
  set (s1 := sin (INR j / 20 * 2 * PI)) in *.
  set (r := px S * 0.4 * 0.7).
  replace (0.7 * (0.4 * px S)) with r by (unfold r; ring).
  replace (px S / 2 + c1 * r - (px S / 2 + c0 * r)) with ((c1 - c0) * r) by ring.
  replace (px S / 2 + s1 * r - (px S / 2 + s0 * r)) with ((s1 - s0) * r) by ring.
  replace ((c1 - c0) * r * ((c1 - c0) * r) + (s1 - s0) * r * ((s1 - s0) * r))
    with (r * r * ((s1 * s1 + c1 * c1) + (s0 * s0 + c0 * c0) - 2 * (c1 * c0 + s1 * s0)))
    by ring.
  rewrite H0, H1. ring.
Qed.

(** Consecutive marks are the same distance apart, all around the ring
    (the mark after the last is the first). *)
Lemma mark_spacing (S : N) (i : nat) :
  dist2 (mark_corner S (Datatypes.S i))
        (fst (mark_corner S i)) (snd (mark_corner S i)) =
  2 * ((0.7 * (0.4 * px S)) * (0.7 * (0.4 * px S))) * (1 - cos (2 * PI / 20)).
Proof. now rewrite mark_chord, mark_angle_step. Qed.

Lemma cos_below_one (a : R) : 0 < a < 2 * PI -> cos a < 1.
Proof.
  intros [Hlo Hhi].
  assert (Hs : 0 < sin (a / 2)) by (apply sin_gt_0; lra).
  replace a with (2 * (a / 2)) by field. rewrite cos_2a_sin. nra.
Qed.

(** On a surface with pixels the twenty marks sit at twenty places. *)
Lemma marks_distinct (S : N) (i j : nat) :
  (S <> 0)%N -> (i < j < 20)%nat -> mark_corner S i <> mark_corner S j.
Proof.
  intros HS [Hij Hj] Heq.
  pose proof (mark_chord S i j) as H. rewrite <- Heq in H.
  assert (H0 : dist2 (mark_corner S i) (fst (mark_corner S i)) (snd (mark_corner S i)) = 0)
    by (unfold dist2; ring).
  rewrite H0 in H.
  pose proof (px_positive HS) as Hpos.
  apply lt_INR in Hij. apply lt_INR in Hj.
  replace (INR 20) with 20 in Hj by (simpl; lra).
  pose proof (pos_INR i) as Hi0. pose proof PI_RGT_0 as Hpi.
  assert (Hcos : cos (INR j / 20 * 2 * PI - INR i / 20 * 2 * PI) < 1).
  { apply cos_below_one.
    replace (INR j / 20 * 2 * PI - INR i / 20 * 2 * PI)
      with ((INR j - INR i) * (PI / 10)) by field.
    split; nra. }
  assert (Hr : 0 < 0.7 * (0.4 * px S) * (0.7 * (0.4 * px S))) by nra.
  nra.
Qed.

Lemma mark_after_last_is_first (S : N) : mark_corner S 20 = mark_corner S 0.
Proof.
  unfold mark_corner.
  replace (INR 20 / 20 * 2 * PI) with (2 * PI) by (simpl; field).
  replace (INR 0 / 20 * 2 * PI) with 0 by (simpl; field).
  now rewrite cos_2PI, sin_2PI, cos_0, sin_0.
Qed.

Lemma Rltb_elim (a b : R) : Rltb a b = true -> a < b.
Proof. unfold Rltb. destruct (Rlt_dec a b); [trivial | discriminate]. Qed.

Lemma Rleb_elim (a b : R) : Rleb a b = true -> a <= b.
Proof. unfold Rleb. destruct (Rle_dec a b); [trivial | discriminate]. Qed.

(** On a surface of 16 pixels or more a texture mark lies within the
    disc and clear of the hole. *)
Lemma mark_on_the_disc (S : N) (p : point) (i : nat) :
  (16 <= S)%N -> in_mark S p i = true ->
  (px S * 0.08) * (px S * 0.08) <= dist2 p (px S / 2) (px S / 2) /\
  dist2 p (px S / 2) (px S / 2) < (px S * 0.4) * (px S * 0.4).
Proof.
  intros HS Hm.
  assert (Hs : 16 <= px S) by (unfold px; apply IZR_le; lia).
  unfold in_mark in Hm. rewrite in_rect_nonneg in Hm by lra.
  unfold mark_corner in Hm. cbn [fst snd] in Hm.
  apply andb_true_iff in Hm. destruct Hm as [Hm Hy1].
  apply andb_true_iff in Hm. destruct Hm as [Hm Hy0].
  apply andb_true_iff in Hm. destruct Hm as [Hx0 Hx1].
  apply Rleb_elim in Hx0, Hy0. apply Rltb_elim in Hx1, Hy1.
  pose proof (COS_bound (INR i / 20 * 2 * PI)) as [Hc0 Hc1].
  pose proof (SIN_bound (INR i / 20 * 2 * PI)) as [Hs0 Hs1].
  pose proof (sin2_cos2 (INR i / 20 * 2 * PI)) as Hunit. unfold Rsqr in Hunit.
  set (c := cos _) in *. set (s := sin _) in *.
  set (r := px S * 0.4 * 0.7) in *.
  set (a := fst p - (px S / 2 + c * r)).
  set (b := snd p - (px S / 2 + s * r)).
  assert (Ha : 0 <= a < 1) by (unfold a; lra).
  assert (Hb : 0 <= b < 1) by (unfold b; lra).
  assert (Hr : 0 < r) by (unfold r; lra).
  assert (Hd : dist2 p (px S / 2) (px S / 2) =
               r * r * (s * s + c * c) + 2 * r * (a * c + b * s) + (a * a + b * b))
    by (unfold dist2, a, b; ring).
  rewrite Hd, Hunit. clear Hd.
  assert (Hac : - a <= a * c <= a) by (split; nra).
  assert (Hbs : - b <= b * s <= b) by (split; nra).
  assert (Hsq : 0 <= a * a + b * b < 2) by (split; nra).
  assert (Hcross : - (4 * r) <= 2 * r * (a * c + b * s) <= 4 * r) by (split; nra).
  assert (H08 : px S * 0.08 = r * (2 / 7)) by (unfold r; lra).
  assert (H04 : px S * 0.4 = r * (10 / 7)) by (unfold r; lra).
  assert (Hlow : 4.48 <= r) by (unfold r; lra).
  assert (Hprod : 0 <= (r - 4.48) * r) by (apply Rmult_le_pos; lra).
  rewrite H08, H04, Rmult_1_r.
  split; nra.
Qed.


(** *** Runs that stop at an error of the canvas *)

Lemma ToUint32_below_one (size : R) : 0 <= size < 1 -> ToUint32 size = 0%N.
Proof.
  intros [H0 H1]. unfold ToUint32, integer_part.
  destruct (Rle_dec 0 size) as [_|H]; [|contradiction].
  rewrite <- (Int_part_spec size 0); [reflexivity | simpl; lra].
Qed.

(** For a size that is not negative the disc base is always had. *)
Lemma loadDiscBase_nonneg (env : browser) (size : R) :
  context_2d env = true -> 0 <= size ->
  exists disc,
    loadDiscBase env size =
      (ImageRequested defaultDiscBase ::
       match image_at env defaultDiscBase with
       | Some _ => []
       | None => [ConsoleWarn "Disc base image not found, creating solid disc"]
       end,
       Resolved disc) /\
    state disc <> Broken.
Proof.
  intros Hctx Hsize.
  unfold loadDiscBase, loadImage, createSolidDisc, createCanvas, getContext.
  destruct (image_at env defaultDiscBase) as [im|].
  - eexists. split; [reflexivity | discriminate].
  - rewrite Hctx, (Rltb_false (a := size * 0.4)) by lra. eexists.
    split; [reflexivity | apply image_of_data_url_not_broken].
Qed.

(** A negative size: the first [arc] that is reached throws, in
    [createSolidDisc] when the disc base is missing and in
    [compositeDiscCover] otherwise. *)
Lemma compositeDiscCover_negative_size
    (env : browser) (url : string) (options : CompositorOptions) (gen : image) :
  context_2d env = true ->
  image_at env url = Some gen ->
  output_size options < 0 ->
  compositeDiscCover env url options =
    (ImageRequested url :: ImageRequested defaultDiscBase ::
     match image_at env defaultDiscBase with
     | Some _ => []
     | None => [ConsoleWarn "Disc base image not found, creating solid disc"]
     end ++
     [ConsoleError "Error compositing disc cover:" (DOMException "IndexSizeError")],
     Rejected (DOMException "IndexSizeError")).
Proof.
  intros Hctx Hgen Hneg.
  unfold compositeDiscCover. fold (output_size options).
  set (size := output_size options) in *.
  unfold loadDiscBase, createSolidDisc, createCanvas, getContext, loadImage.
  rewrite Hctx, Hgen.
  destruct (image_at env defaultDiscBase) as [im|].
  - cbn -[composite drawCanvas toDataURL restore clip arc add_arc beginPath save blank
          ToUint32 unsigned_long].
    rewrite (arc_negative _ _ _ false) by lra. reflexivity.
  - rewrite (Rltb_true (a := size * 0.4)) by lra. reflexivity.
Qed.

(** A size that [canvas.width] stores as 0: the scratch canvas has no
    pixels, and drawing it throws. *)
Lemma compositeDiscCover_no_pixels
    (env : browser) (url : string) (options : CompositorOptions) (gen : image) :
  context_2d env = true ->
  image_at env url = Some gen ->
  0 <= output_size options ->
  ToUint32 (output_size options) = 0%N ->
  compositeDiscCover env url options =
    (ImageRequested url :: ImageRequested defaultDiscBase ::
     match image_at env defaultDiscBase with
     | Some _ => []
     | None => [ConsoleWarn "Disc base image not found, creating solid disc"]
     end ++
     [ConsoleError "Error compositing disc cover:" (DOMException "InvalidStateError")],
     Rejected (DOMException "InvalidStateError")).
Proof.
  intros Hctx Hgen Hsize Hzero.
  destruct (@loadDiscBase_nonneg env (output_size options) Hctx Hsize)
    as (disc & Hdisc & Hok).
  unfold compositeDiscCover. fold (output_size options).
  set (size := output_size options) in *.
  unfold createCanvas, getContext, loadImage. rewrite Hctx, Hgen, Hzero.
  change (unsigned_long 300 0) with 0%N. change (unsigned_long 150 0) with 0%N.
  cbn -[loadDiscBase drawImage composite drawCanvas toDataURL restore clip arc add_arc
        beginPath save blank].
  rewrite Hdisc.
  cbn -[drawImage composite drawCanvas toDataURL restore clip arc add_arc beginPath
        save blank].
  rewrite (@drawImage_not_broken _ disc _ _ _ _ Hok).
  cbn -[composite drawCanvas toDataURL restore clip arc add_arc beginPath save blank].
  rewrite (arc_nonneg _ _ _ false) by lra.
  cbn -[composite drawCanvas toDataURL restore clip arc add_arc beginPath save blank].
  rewrite (arc_nonneg _ _ _ true) by lra.
  cbn -[composite drawCanvas toDataURL restore clip arc add_arc beginPath save blank].
  unfold drawCanvas.
  destruct (composite_frame (blank 0 0)
              {| src := Url url; crossOrigin := Some "anonymous"; state := Available gen |}
              0 0 size size) as (Hw & _).
  rewrite Hw. cbn [width blank N.eqb orb].
  destruct (image_at env defaultDiscBase); reflexivity.
Qed.



(** A run whose disc base does not load: the failure is logged as a
    warning, the solid disc is made, and the call resolves. *)
Lemma fallback_run
    (env : browser) (url : string) (options : CompositorOptions) (gen : image) (S : N) :
  output_size options = px S ->
  backed S = true ->
  context_2d env = true ->
  image_at env url = Some gen ->
  image_at env defaultDiscBase = None ->
  exists out,
    compositeDiscCover env url options =
      ([ImageRequested url; ImageRequested defaultDiscBase;
        ConsoleWarn "Disc base image not found, creating solid disc"],
       Resolved (DataPng S S out)) /\
    forall p,
      out p =
      composited gen
        (image_of_data_url env (toDataURL (solidDiscSurface (blank S S) S))) S p.
Proof.
  intros Hwhole Hback Hctx Hgen Hmissing.
  exact (@compositeDiscCover_run env url options gen _ _ S Hwhole Hback Hctx Hgen
           (@loadDiscBase_fallback env S Hback Hmissing Hctx)
           (image_of_data_url_not_broken env _)).
Qed.

(** *** The claims about the compositor *)


(** C7.  When the generated image does not load, [compositeDiscCover]
    never resolves; with a 2D context available it rejects with the load
    error of that URL after a single image request: the disc base is not
    requested, no solid disc is made and no data URL is produced. *)
Theorem C7_generated_image_failure_rejects
    (env : browser) (url : string) (options : CompositorOptions)
    (Hgen : image_at env url = None) :
  (forall d, result (compositeDiscCover env url options) <> Resolved d) /\
  (context_2d env = true ->
     compositeDiscCover env url options =
       ([ImageRequested url;
         ConsoleError "Error compositing disc cover:" (ImageLoadFailed url)],
        Rejected (ImageLoadFailed url))).
Proof.
  unfold compositeDiscCover, createCanvas, getContext, loadImage.
  rewrite Hgen. destruct (context_2d env).
  - split; [intros d; discriminate | reflexivity].
  - split; [intros d; discriminate | discriminate].
Qed.

(** X1.  What [createSolidDisc] makes for a whole size [S] that the
    canvas keeps and the engine backs, whatever the state of the page: an
    element whose [src] is the PNG of an [S] x [S] surface showing the
    solid disc, with its twenty marks at twenty places on the ring of
    radius [0.7 * (0.4 S)], one twentieth of a turn apart. *)
Theorem createSolidDisc_makes_the_solid_disc (env : browser) (S : N)
    (Hctx : context_2d env = true) (HS : backed S = true) :
  exists el surface,
    createSolidDisc env S = ([], Resolved el) /\
    src el = Data (DataPng S S surface) /\
    (forall p, surface p = solid_disc S p) /\
    List.length (seq 0 20) = 20%nat /\
    (forall i, from_centre S (mark_corner S i) = 0.7 * (0.4 * px S)) /\
    (forall i,
       dist2 (mark_corner S (Datatypes.S i))
             (fst (mark_corner S i)) (snd (mark_corner S i)) =
       2 * ((0.7 * (0.4 * px S)) * (0.7 * (0.4 * px S))) * (1 - cos (2 * PI / 20))) /\
    mark_corner S 20 = mark_corner S 0 /\
    (forall i j, (i < j < 20)%nat -> mark_corner S i <> mark_corner S j).
Proof.
  destruct (backed_size _ HS) as (Hnz & Hw & Hh & _).
  exists (image_of_data_url env (toDataURL (solidDiscSurface (blank S S) S))).
  exists (pixels (solidDiscSurface (blank S S) S)).
  pose proof (px_nonneg S) as Hs.
  split; [unfold createSolidDisc, createCanvas, getContext;
          now rewrite Hctx, Hw, Hh, (Rltb_false (a := px S * 0.4)) by lra|].
  split; [now rewrite (toDataURL_solid_disc _ HS)|].
  split; [apply solidDiscSurface_is_solid_disc|].
  split; [reflexivity|].
  split; [apply mark_corner_from_centre|].
  split; [apply mark_spacing|].
  split; [apply mark_after_last_is_first|].
  intros i j Hij. now apply marks_distinct.
Qed.

(** X2.  In a page where the data URL of the solid disc is already
    available, for a whole output size that the canvas keeps and the
    engine backs, the solid disc is the background of the composite when
    the disc base is missing: the call resolves after one warning, and
    the output shows the generated image over the solid disc on the ring
    and the solid disc everywhere else. *)
Theorem solid_disc_is_the_background_when_usable
    (env : browser) (url : string) (options : CompositorOptions) (gen : image)
    (Hctx : context_2d env = true)
    (Hgen : image_at env url = Some gen)
    (Hmissing : image_at env defaultDiscBase = None)
    (Hsync : data_url_sync env = true)
    (S : N)
    (Hwhole : output_size options = px S)
    (Hsize : backed S = true) :
  exists out,
    compositeDiscCover env url options =
      ([ImageRequested url; ImageRequested defaultDiscBase;
        ConsoleWarn "Disc base image not found, creating solid disc"],
       Resolved (DataPng S S out)) /\
    forall p,
      out p =
      if on_surface S p && in_path (ring_path S) p
      then over (shown gen S p) (solid_disc S p)
      else solid_disc S p.
Proof.
  destruct (@fallback_run env url options gen S Hwhole Hsize Hctx Hgen Hmissing)
    as (out & Hrun & Hout).
  exists out. split; [exact Hrun|].
  intros p. rewrite Hout. unfold composited.
  now rewrite (@background_solid_disc_eager env _ p Hsync Hsize).
Qed.

(** In a fresh page the element [createSolidDisc] returns is not usable
    when it is drawn: outside the ring the composite stays transparent. *)
Theorem solid_disc_is_not_drawn_when_pending
    (env : browser) (url : string) (options : CompositorOptions) (gen : image)
    (Hctx : context_2d env = true)
    (Hgen : image_at env url = Some gen)
    (Hmissing : image_at env defaultDiscBase = None)
    (Hsync : data_url_sync env = false)
    (S : N)
    (Hwhole : output_size options = px S)
    (Hsize : backed S = true) :
  exists out,
    compositeDiscCover env url options =
      ([ImageRequested url; ImageRequested defaultDiscBase;
        ConsoleWarn "Disc base image not found, creating solid disc"],
       Resolved (DataPng S S out)) /\
    forall p,
      out p = if on_surface S p && in_path (ring_path S) p then shown gen S p else Clear.
Proof.
  destruct (@fallback_run env url options gen S Hwhole Hsize Hctx Hgen Hmissing)
    as (out & Hrun & Hout).
  exists out. split; [exact Hrun|].
  intros p. rewrite Hout. unfold composited.
  rewrite (@background_solid_disc_pending env _ _ p Hsync).
  destruct (on_surface S p && in_path (ring_path S) p); [|reflexivity].
  destruct (shown gen S p); reflexivity.
Qed.

End AnyEngine.

(** *** Sampling concrete surfaces *)

Lemma px_300 : px 300 = 300.
Proof. reflexivity. Qed.

Lemma on_surface_300 (x y : R) :
  0 <= x < 300 -> 0 <= y < 300 -> on_surface 300 (x, y) = true.
Proof.
  intros Hx Hy. unfold on_surface, in_canvas. cbn [fst snd width height blank].
  rewrite px_300. rewrite !Rleb_true, !Rltb_true; try reflexivity; lra.
Qed.

Lemma from_centre_300 (x : R) : from_centre 300 (x, 150) = Rabs (x - 150).
Proof.
  unfold from_centre, dist2. cbn [fst snd]. rewrite px_300.
  replace ((x - 300 / 2) * (x - 300 / 2) + (150 - 300 / 2) * (150 - 300 / 2))
    with (Rsqr (x - 150)) by (unfold Rsqr; field).
  apply sqrt_Rsqr_abs.
Qed.



Lemma from_centre_300_at_10 : from_centre 300 (10, 150) = 140.
Proof.
  rewrite from_centre_300, Rabs_left by lra. ring.
Qed.

(** No texture mark of the 300 pixel disc reaches the column [x = 10]. *)
Lemma no_mark_at_left_edge (i : nat) : in_mark 300 (10, 150) i = false.
Proof.
  unfold in_mark. rewrite in_rect_nonneg by lra.
  unfold mark_corner. cbn [fst snd]. rewrite px_300.
  pose proof (COS_bound (INR i / 20 * 2 * PI)) as [Hlo _].
  rewrite Rleb_false; [reflexivity|]. nra.
Qed.

Lemma solid_disc_300_left_edge : solid_disc 300 (10, 150) = Paint light_gray.
Proof.
  unfold solid_disc. rewrite on_surface_300 by lra.
  replace (existsb (in_mark 300 (10, 150)) (seq 0 20)) with false.
  - pose proof from_centre_300_at_10 as H.
    assert (Hd : dist2 (10, 150) (px 300 / 2) (px 300 / 2) = 140 * 140).
    { unfold dist2. cbn [fst snd]. rewrite px_300. field. }
    rewrite Hd, px_300, !Rltb_false by lra. reflexivity.
  - symmetry. apply not_true_is_false. intros Hex.
    apply existsb_exists in Hex. destruct Hex as (i & _ & Hi).
    rewrite no_mark_at_left_edge in Hi. discriminate Hi.
Qed.



(** With nothing served the compositor rejects with the load error of
    the generated image and asks for nothing else. *)
Lemma C7_witness_offline :
  (forall d, result (compositeDiscCover browser_offline "cover.png" no_options)
             <> Resolved d) /\
  (context_2d browser_offline = true ->
     compositeDiscCover browser_offline "cover.png" no_options =
       ([ImageRequested "cover.png";
         ConsoleError "Error compositing disc cover:" (ImageLoadFailed "cover.png")],
        Rejected (ImageLoadFailed "cover.png"))).
Proof.
  apply (@C7_generated_image_failure_rejects sample_engine browser_offline "cover.png" no_options).
  reflexivity.
Defined.

Lemma createSolidDisc_witness_300 :
  exists el surface,
    createSolidDisc browser_without_disc 300 = ([], Resolved el) /\
    src el = Data (DataPng 300 300 surface) /\
    (forall p, surface p = solid_disc 300 p) /\
    List.length (seq 0 20) = 20%nat /\
    (forall i, from_centre 300 (mark_corner 300 i) = 0.7 * (0.4 * px 300)) /\
    (forall i,
       dist2 (mark_corner 300 (Datatypes.S i))
             (fst (mark_corner 300 i)) (snd (mark_corner 300 i)) =
       2 * ((0.7 * (0.4 * px 300)) * (0.7 * (0.4 * px 300))) * (1 - cos (2 * PI / 20))) /\
    mark_corner 300 20 = mark_corner 300 0 /\
    (forall i j, (i < j < 20)%nat -> mark_corner 300 i <> mark_corner 300 j).
Proof.
  apply (@createSolidDisc_makes_the_solid_disc sample_engine browser_without_disc 300);
    reflexivity.
Defined.

Lemma solid_disc_is_the_background_witness :
  exists out,
    compositeDiscCover eager_browser_without_disc "cover.png" no_options =
      ([ImageRequested "cover.png"; ImageRequested defaultDiscBase;
        ConsoleWarn "Disc base image not found, creating solid disc"],
       Resolved (DataPng 300 300 out)) /\
    forall p,
      out p =
      if on_surface 300 p && in_path (ring_path 300) p
      then over (shown artwork 300 p) (solid_disc 300 p)
      else solid_disc 300 p.
Proof.
  apply (@solid_disc_is_the_background_when_usable
           sample_engine eager_browser_without_disc "cover.png" no_options artwork
           eq_refl eq_refl eq_refl eq_refl 300); reflexivity.
Defined.

(** C2, at a missing disc base in a browser that follows the HTML load
    algorithm.  The load failure is not surfaced (the call resolves, after
    a warning) and the solid disc is made, but it is not what the output
    shows: at the point [(10, 150)] of the 300 pixel surface the solid
    disc is light gray and the composite is transparent. *)
Theorem C2_solid_disc_made_but_not_drawn :
  exists out,
    compositeDiscCover browser_without_disc "cover.png" no_options =
      ([ImageRequested "cover.png"; ImageRequested "/disc-bg-new.png";
        ConsoleWarn "Disc base image not found, creating solid disc"],
       Resolved (DataPng 300 300 out)) /\
    solid_disc 300 (10, 150) = Paint light_gray /\
    out (10, 150) = Clear.
Proof.
  destruct (@solid_disc_is_not_drawn_when_pending
              sample_engine browser_without_disc "cover.png" no_options artwork
              eq_refl eq_refl eq_refl eq_refl 300 eq_refl eq_refl)
    as (out & Hrun & Hout).
  exists out. split; [exact Hrun|]. split; [exact solid_disc_300_left_edge|].
  rewrite Hout. change (output_size no_options) with 300%N.
  rewrite outside_disc_not_clipped_in; [now rewrite andb_false_r|].
  rewrite from_centre_300_at_10, px_300. lra.
Qed.

(** C9, at two calls with the same arguments in one page whose disc base
    is missing.  The loads and the context answer alike both times; what
    differs is the page: at the second call the data URL of the solid
    disc, made and loaded by the first, is available.  The two outputs
    differ: at the point [(10, 150)] the first is transparent and the
    second light gray. *)
Theorem C9_identical_calls_differ_when_disc_base_is_missing :
  let page := browser_without_disc in
  let later := once_solid_disc_loaded page in
  image_at later = image_at page /\
  context_2d later = context_2d page /\
  exists first second,
    result (compositeDiscCover page "cover.png" no_options) =
      Resolved (DataPng 300 300 first) /\
    result (compositeDiscCover later "cover.png" no_options) =
      Resolved (DataPng 300 300 second) /\
    first (10, 150) = Clear /\
    second (10, 150) = Paint light_gray.
Proof.
  intros page later. subst page later. fold eager_browser_without_disc.
  split; [reflexivity|]. split; [reflexivity|].
  destruct (@fallback_run sample_engine browser_without_disc "cover.png" no_options
              artwork 300 eq_refl eq_refl eq_refl eq_refl eq_refl)
    as (out1 & Hrun1 & Hout1).
  destruct (@fallback_run sample_engine eager_browser_without_disc "cover.png" no_options
              artwork 300 eq_refl eq_refl eq_refl eq_refl eq_refl)
    as (out2 & Hrun2 & Hout2).
  exists out1, out2.
  assert (Hclip : in_path (ring_path 300) (10, 150) = false).
  { apply outside_disc_not_clipped_in. rewrite from_centre_300_at_10, px_300. lra. }
  split; [now rewrite Hrun1|]. split; [now rewrite Hrun2|]. split.
  - rewrite Hout1. unfold composited. rewrite Hclip, andb_false_r.
    now apply background_solid_disc_pending.
  - rewrite Hout2. unfold composited. rewrite Hclip, andb_false_r.
    rewrite (@background_solid_disc_eager sample_engine eager_browser_without_disc
               300 (10, 150) eq_refl eq_refl).
    exact solid_disc_300_left_edge.
Qed.

End CompositorProofs.

(** ** Further properties of the generation client *)

Module ClientExtras.

Import DreamLayerAPI ClientFacts ClientObservations ClientProofs.
Open Scope string_scope.

Lemma generateImage_logged (net : network) (this : client) (request : GenerationRequest) :
  logged (effects (generateImage net this request)) =
  match result (generateImage net this request) with
  | Rejected e => [("Error generating image:", e)]
  | Resolved _ => []
  end.
Proof.
  unfold generateImage, fetch, response_json, console_error. cbn.
  destruct (fetch_answer net _) as [resp|e]; cbn; [|reflexivity].
  destruct (json resp); reflexivity.
Qed.

Lemma getModels_logged (net : network) (this : client) :
  logged (effects (getModels net this)) =
  match result (getModels net this) with
  | Rejected e => [("Error fetching models:", e)]
  | Resolved _ => []
  end.
Proof.
  unfold getModels, fetch, response_json, console_error. cbn.
  destruct (fetch_answer net _) as [resp|e]; cbn; [|reflexivity].
  destruct (json resp) as [data|e]; cbn; [|reflexivity].
  destruct (get data "status") as [st|e]; cbn; [|reflexivity].
  destruct (strict_eq_string st "success"); cbn; [|reflexivity].
  destruct (get data "models"); reflexivity.
Qed.

Lemma downloadImage_logged (net : network) (this : client) (filename : string) :
  logged (effects (downloadImage net this filename)) =
  match result (downloadImage net this filename) with
  | Rejected e => [("Error downloading image:", e)]
  | Resolved _ => []
  end.
Proof.
  unfold downloadImage, fetch, console_error. cbn.
  destruct (fetch_answer net _) as [resp|e]; cbn; [|reflexivity].
  destruct (ok resp); reflexivity.
Qed.

(** X3.  Each of [getModels], [generateImage] and [downloadImage] writes
    to [console.error] exactly when it rejects: once, under its own label
    and with the very error it rejects with; a call that resolves logs
    nothing. *)
Theorem X3_rejections_are_logged_once (net : network) (this : client) :
  logged (effects (getModels net this)) =
    match result (getModels net this) with
    | Rejected e => [("Error fetching models:", e)]
    | Resolved _ => []
    end /\
  (forall request,
     logged (effects (generateImage net this request)) =
     match result (generateImage net this request) with
     | Rejected e => [("Error generating image:", e)]
     | Resolved _ => []
     end) /\
  (forall filename,
     logged (effects (downloadImage net this filename)) =
     match result (downloadImage net this filename) with
     | Rejected e => [("Error downloading image:", e)]
     | Resolved _ => []
     end).
Proof.
  split; [apply getModels_logged|].
  split; [apply generateImage_logged | apply downloadImage_logged].
Qed.

(** X4.  [getModels] and [downloadImage] each perform exactly one
    request, whatever the answer: a GET without headers or body, to the
    models endpoint and to the image URL of the file name.  For a client
    built on [base] that URL is [base], [":5001/api/images/"] and the
    file name. *)
Theorem X4_one_get_per_call (net : network) (this : client) :
  sent (effects (getModels net this)) =
    [ {| req_url := modelsURL this; req_method := "GET";
         req_headers := []; req_body := None |} ] /\
  (forall filename,
     sent (effects (downloadImage net this filename)) =
     [ {| req_url := getImageURL this filename; req_method := "GET";
          req_headers := []; req_body := None |} ]) /\
  (forall base filename,
     sent (effects (downloadImage net (new base) filename)) =
     [ {| req_url := base ++ ":5001/api/images/" ++ filename; req_method := "GET";
          req_headers := []; req_body := None |} ]).
Proof.
  assert (Hdl : forall c filename,
             sent (effects (downloadImage net c filename)) =
             [get_request (getImageURL c filename)]).
  { intros c filename. unfold downloadImage, fetch, console_error. cbn.
    destruct (fetch_answer net _) as [resp|e]; cbn; [|reflexivity].
    destruct (ok resp); reflexivity. }
  split; [|split].
  - unfold getModels, fetch, response_json, console_error. cbn.
    destruct (fetch_answer net _) as [resp|e]; cbn; [|reflexivity].
    destruct (json resp) as [data|e]; cbn; [|reflexivity].
    destruct (get data "status") as [st|e]; cbn; [|reflexivity].
    destruct (strict_eq_string st "success"); cbn; [|reflexivity].
    destruct (get data "models"); reflexivity.
  - intros filename. apply Hdl.
  - intros base filename. rewrite Hdl. unfold get_request, getImageURL, new. cbn.
    now rewrite append_assoc_string.
Qed.

(** X5.  What [getModels] does with a parsed body.  A body that is
    [null] is a [TypeError]; an object whose [status] is ['success']
    resolves with whatever its [models] property holds, [undefined] when
    the key is missing; every other body, a string, a number or an array
    included, rejects with ["Failed to fetch models"]. *)
Theorem X5_getModels_by_body
    (net : network) (this : client) (resp : response) (data : value)
    (Hfetch : fetch_answer net (get_request (modelsURL this)) = Resolved resp)
    (Hjson : json resp = Resolved data) :
  (data = VNull -> exists msg, result (getModels net this) = Rejected (TypeError msg)) /\
  (forall fields,
     data = VObj fields -> lookup "status" fields = Some (VStr "success") ->
     result (getModels net this) =
     Resolved (match lookup "models" fields with
               | Some models => models
               | None => VUndefined
               end)) /\
  (forall fields,
     data = VObj fields -> lookup "status" fields <> Some (VStr "success") ->
     result (getModels net this) = Rejected (Error "Failed to fetch models")) /\
  ((forall fields, data <> VObj fields) -> data <> VNull -> data <> VUndefined ->
     result (getModels net this) = Rejected (Error "Failed to fetch models")).
Proof.
  rewrite getModels_result, Hfetch, Hjson. split; [|split; [|split]].
  - intros ->. eexists. reflexivity.
  - intros fields -> Hs. simpl. rewrite Hs. reflexivity.
  - intros fields -> Hs. simpl.
    destruct (lookup "status" fields) as [st|] eqn:Hst; [|reflexivity].
    destruct (strict_eq_string st "success") eqn:Heq; [|reflexivity].
    apply strict_eq_string_true in Heq. congruence.
  - intros Hobj Hnull Hundef.
    destruct data; try reflexivity; try congruence.
Qed.

(** A body [{status: "success"}] without [models] makes [getModels]
    resolve with [undefined]. *)
Lemma X5_witness_missing_models :
  result (getModels backend_without_models default_client) = Resolved VUndefined.
Proof.
  apply (@X5_getModels_by_body backend_without_models default_client
           success_without_models (VObj [("status", VStr "success")])
           eq_refl eq_refl)
    with (fields := [("status", VStr "success")]); reflexivity.
Defined.

(** X6.  The payload of [generateImage] always has the same eight keys
    in the same order, and so has the object the backend reads.  An
    optional field set to a non-empty string or to a finite number other
    than zero reaches the backend as the caller gave it.  [Infinity] and
    [-Infinity] are truthy too and stay in the payload, but
    [JSON.stringify] writes them as [null]: the backend reads [null]. *)
Theorem X6_truthy_fields_as_sent (this : client) (request : GenerationRequest) :
  let body := payload request in
  let wire := as_sent body in
  req_body (txt2img_request this request) = Some body /\
  keys body = ["prompt"; "negative_prompt"; "checkpoint"; "steps"; "cfg";
               "width"; "height"; "batch_size"] /\
  keys wire = keys body /\
  (forall s, negative_prompt request = Some s -> s <> EmptyString ->
     field "negative_prompt" wire = Some (VStr s)) /\
  (forall s, checkpoint request = Some s -> s <> EmptyString ->
     field "checkpoint" wire = Some (VStr s)) /\
  (forall q, ~ (q == 0)%Q ->
     (steps request = Some (Num q) -> field "steps" wire = Some (VNum (Num q))) /\
     (cfg request = Some (Num q) -> field "cfg" wire = Some (VNum (Num q))) /\
     (width request = Some (Num q) -> field "width" wire = Some (VNum (Num q))) /\
     (height request = Some (Num q) -> field "height" wire = Some (VNum (Num q))) /\
     (batch_size request = Some (Num q) ->
        field "batch_size" wire = Some (VNum (Num q)))) /\
  (forall negative,
     (steps request = Some (Infinity negative) ->
        field "steps" body = Some (VNum (Infinity negative)) /\
        field "steps" wire = Some VNull) /\
     (cfg request = Some (Infinity negative) ->
        field "cfg" body = Some (VNum (Infinity negative)) /\
        field "cfg" wire = Some VNull) /\
     (width request = Some (Infinity negative) ->
        field "width" body = Some (VNum (Infinity negative)) /\
        field "width" wire = Some VNull) /\
     (height request = Some (Infinity negative) ->
        field "height" body = Some (VNum (Infinity negative)) /\
        field "height" wire = Some VNull) /\
     (batch_size request = Some (Infinity negative) ->
        field "batch_size" body = Some (VNum (Infinity negative)) /\
        field "batch_size" wire = Some VNull)).
Proof.
  intros body wire. subst wire body.
  split; [reflexivity|]. split; [reflexivity|]. split; [reflexivity|].
  unfold payload, field.
  cbn [as_sent lookup String.eqb Ascii.eqb Bool.eqb].
  assert (Hs : forall s, s <> EmptyString -> string_truthy s = true).
  { intros [|a s] H; [now contradiction H | reflexivity]. }
  assert (Hq : forall q, ~ (q == 0)%Q -> number_truthy (Num q) = true).
  { intros q H. unfold number_truthy. apply negb_true_iff.
    destruct (Qeq_bool q 0) eqn:E; [|reflexivity].
    apply Qeq_bool_eq in E. contradiction. }
  split; [|split; [|split]].
  - intros s -> Hne. unfold or_default. now rewrite (Hs s Hne).
  - intros s -> Hne. unfold or_default. now rewrite (Hs s Hne).
  - intros q Hne.
    split; [|split; [|split; [|split]]];
      intros ->; unfold or_default; now rewrite (Hq q Hne).
  - intros negative.
    split; [|split; [|split; [|split]]]; intros ->; split; reflexivity.
Qed.

(** X7.  [generatePlaylistCover] is one call of [generateImage] with
    the request literal [{ prompt }].  The prompt is the template of the
    style with the mood inserted as given, followed by the playlist
    clause only when a non-empty name is passed (an empty name counts as
    none); every other setting of the request that is sent is the
    default. *)
Theorem X7_playlist_cover_delegates
    (net : network) (this : client) (s : style) (mood : string) :
  generatePlaylistCover net this s mood None =
    generateImage net this (prompt_only (prompts mood s)) /\
  generatePlaylistCover net this s mood (Some EmptyString) =
    generateImage net this (prompt_only (prompts mood s)) /\
  (forall name, name <> EmptyString ->
     generatePlaylistCover net this s mood (Some name) =
     generateImage net this (prompt_only (prompts mood s ++ inspired_by name))) /\
  (forall p,
     sent (effects (generateImage net this (prompt_only p))) =
     [ {| req_url := txt2imgURL this; req_method := "POST";
          req_headers := [("Content-Type", "application/json")];
          req_body :=
            Some (VObj [("prompt", VStr p);
                        ("negative_prompt", VStr "blurry, low quality, bad anatomy");
                        ("checkpoint", VStr "stable-diffusion-v1-5.safetensors");
                        ("steps", VNum (Num 20)); ("cfg", VNum (Num 7));
                        ("width", VNum (Num 300)); ("height", VNum (Num 300));
                        ("batch_size", VNum (Num 1))]) |} ]) /\
  (exists before after, forall m, prompts m s = before ++ m ++ after).
Proof.
  split; [reflexivity|]. split; [reflexivity|]. split; [|split].
  - intros [|a name] Hne; [now contradiction Hne | reflexivity].
  - intros p. apply generateImage_sends.
  - destruct s;
      [ exists "beautiful gradient, ", ", artistic, 300x300px, square"
      | exists "abstract geometric shapes, ", ", modern art, 300x300px, square"
      | exists "nature landscape, ", ", scenic, 300x300px, square" ];
      reflexivity.
Qed.

End ClientExtras.

(** ** Further properties of the compositor *)

Module CompositorExtras.

Import Canvas ImageCompositor CompositorFacts ImageCompositorRest CompositorProofs.
Open Scope string_scope.
Open Scope R_scope.

Section AnyEngineExtras.
Context {engine : Engine}.

(** X8.  Of its options [compositeDiscCover] reads the output size
    only, and that through [||]: two option objects with the same size in
    force give the same outcome, so the images an option object carries
    are never used and a size of 0 counts as no size. *)
Theorem X8_only_the_size_in_force_counts
    (env : browser) (url : string) (o1 o2 : CompositorOptions)
    (Hsize : output_size o1 = output_size o2) :
  compositeDiscCover env url o1 = compositeDiscCover env url o2.
Proof.
  unfold compositeDiscCover. fold (output_size o1). fold (output_size o2).
  now rewrite Hsize.
Qed.

(** X9.  Without a 2D context [compositeDiscCover] rejects with the
    error ["Could not get canvas context"] before anything else happens:
    no image is requested, and since the canvas is made outside the [try]
    nothing is written to the console. *)
Theorem X9_no_context_rejects_first
    (env : browser) (url : string) (options : CompositorOptions)
    (Hctx : context_2d env = false) :
  compositeDiscCover env url options =
  ([], Rejected (Error "Could not get canvas context")).
Proof.
  unfold compositeDiscCover, createCanvas, getContext. now rewrite Hctx.
Qed.

(** X10.  The effects of a run whose generated image loads, by the size
    in force.  At a whole size that the canvas keeps and the engine backs
    the run resolves, and its effects are, in this order: the request for
    the generated image, the request for the disc base, and a console
    warning exactly when the disc base did not load; nothing is written
    with [console.error].  At a negative size the first [arc] throws, and
    at a size that [canvas.width] stores as 0 (a size below 1, or 2^32)
    drawing the scratch canvas throws: the run rejects with that
    [DOMException], and it is written with [console.error] after the same
    requests and warning. *)
Theorem X10_effects_by_size
    (env : browser) (url : string) (options : CompositorOptions) (gen : image)
    (Hctx : context_2d env = true)
    (Hgen : image_at env url = Some gen) :
  (forall S : N,
     output_size options = px S -> backed S = true ->
     (exists d, result (compositeDiscCover env url options) = Resolved d) /\
     effects (compositeDiscCover env url options) =
       ImageRequested url :: ImageRequested "/disc-bg-new.png" ::
       match image_at env "/disc-bg-new.png" with
       | Some _ => []
       | None => [ConsoleWarn "Disc base image not found, creating solid disc"]
       end) /\
  (output_size options < 0 ->
     compositeDiscCover env url options =
       (ImageRequested url :: ImageRequested "/disc-bg-new.png" ::
        match image_at env "/disc-bg-new.png" with
        | Some _ => []
        | None => [ConsoleWarn "Disc base image not found, creating solid disc"]
        end ++
        [ConsoleError "Error compositing disc cover:" (DOMException "IndexSizeError")],
        Rejected (DOMException "IndexSizeError"))) /\
  (0 <= output_size options -> ToUint32 (output_size options) = 0%N ->
     compositeDiscCover env url options =
       (ImageRequested url :: ImageRequested "/disc-bg-new.png" ::
        match image_at env "/disc-bg-new.png" with
        | Some _ => []
        | None => [ConsoleWarn "Disc base image not found, creating solid disc"]
        end ++
        [ConsoleError "Error compositing disc cover:" (DOMException "InvalidStateError")],
        Rejected (DOMException "InvalidStateError"))) /\
  (0 <= output_size options < 1 -> ToUint32 (output_size options) = 0%N) /\
  (forall k : N, ToUint32 (px (4294967296 * k)) = 0%N).
Proof.
  split; [|split; [|split; [|split]]].
  - intros S Hwhole Hsize.
    destruct (image_at env "/disc-bg-new.png") as [d|] eqn:Hd.
    + destruct (@compositeDiscCover_run _ env url options gen _ _ S Hwhole Hsize Hctx Hgen
                  (@loadDiscBase_asset _ env S d Hd)) as (out & Hrun & _);
        [discriminate|].
      rewrite Hrun. split; [eexists|]; reflexivity.
    + destruct (@compositeDiscCover_run _ env url options gen _ _ S Hwhole Hsize Hctx Hgen
                  (@loadDiscBase_fallback _ env S Hsize Hd Hctx)
                  (image_of_data_url_not_broken env _)) as (out & Hrun & _).
      rewrite Hrun. split; [eexists|]; reflexivity.
  - intros Hneg. now apply compositeDiscCover_negative_size with (gen := gen).
  - intros Hpos Hzero. now apply compositeDiscCover_no_pixels with (gen := gen).
  - apply ToUint32_below_one.
  - intros k. rewrite ToUint32_px. rewrite N.mul_comm. apply N.Div0.mod_mul.
Qed.

(** X13.  When the disc base asset loads, the outcome does not depend on
    how the engine treats data URLs: the solid disc is never made. *)
Theorem X13_asset_run_ignores_data_url_timing
    (env1 env2 : browser) (url : string) (options : CompositorOptions) (d : image)
    (Hgen : image_at env1 url = image_at env2 url)
    (Hd1 : image_at env1 "/disc-bg-new.png" = Some d)
    (Hd2 : image_at env2 "/disc-bg-new.png" = Some d)
    (Hctx : context_2d env1 = context_2d env2) :
  compositeDiscCover env1 url options = compositeDiscCover env2 url options.
Proof.
  unfold compositeDiscCover, loadDiscBase, createCanvas, getContext, loadImage,
    defaultDiscBase.
  rewrite Hgen, Hd1, Hd2, Hctx. reflexivity.
Qed.

End AnyEngineExtras.

Lemma X8_witness_images_and_zero_size :
  compositeDiscCover browser_with_disc "cover.png" options_with_images =
  compositeDiscCover browser_with_disc "cover.png" no_options.
Proof.
  apply (@X8_only_the_size_in_force_counts
           sample_engine browser_with_disc "cover.png" options_with_images no_options).
  unfold output_size, or_default, size_truthy, options_with_images, no_options.
  cbn [outputSize]. now rewrite (@Reqb_true 0 0 eq_refl).
Defined.

Lemma X9_witness_no_context :
  compositeDiscCover browser_without_context "cover.png" no_options =
  ([], Rejected (Error "Could not get canvas context")).
Proof.
  apply (@X9_no_context_rejects_first
           sample_engine browser_without_context "cover.png" no_options).
  reflexivity.
Defined.

(** With the disc base served: a run at the default size, one at the
    size -5 and one at the size 0.5. *)
Lemma X10_witness_three_sizes :
  ((exists d,
      result (compositeDiscCover browser_with_disc "cover.png" no_options) = Resolved d) /\
   effects (compositeDiscCover browser_with_disc "cover.png" no_options) =
     [ImageRequested "cover.png"; ImageRequested "/disc-bg-new.png"]) /\
  compositeDiscCover browser_with_disc "cover.png" (sized (-5)) =
    ([ImageRequested "cover.png"; ImageRequested "/disc-bg-new.png";
      ConsoleError "Error compositing disc cover:" (DOMException "IndexSizeError")],
     Rejected (DOMException "IndexSizeError")) /\
  compositeDiscCover browser_with_disc "cover.png" (sized 0.5) =
    ([ImageRequested "cover.png"; ImageRequested "/disc-bg-new.png";
      ConsoleError "Error compositing disc cover:" (DOMException "InvalidStateError")],
     Rejected (DOMException "InvalidStateError")).
Proof.
  assert (Hm5 : output_size (sized (-5)) = -5) by (apply output_size_sized; lra).
  assert (Hhalf : output_size (sized 0.5) = 0.5) by (apply output_size_sized; lra).
  split; [|split].
  - apply (proj1 (@X10_effects_by_size
                    sample_engine browser_with_disc "cover.png" no_options artwork
                    eq_refl eq_refl) 300%N); reflexivity.
  - apply (proj1 (proj2 (@X10_effects_by_size
                           sample_engine browser_with_disc "cover.png" (sized (-5)) artwork
                           eq_refl eq_refl))).
    rewrite Hm5. lra.
  - apply (proj1 (proj2 (proj2 (@X10_effects_by_size
                                  sample_engine browser_with_disc "cover.png" (sized 0.5)
                                  artwork eq_refl eq_refl)))).
    + rewrite Hhalf. lra.
    + apply ToUint32_below_one. rewrite Hhalf. lra.
Defined.

Lemma X13_witness_eager_and_standard :
  compositeDiscCover browser_with_disc "cover.png" no_options =
  compositeDiscCover eager_browser_with_disc "cover.png" no_options.
Proof.
  apply (@X13_asset_run_ignores_data_url_timing
           sample_engine browser_with_disc eager_browser_with_disc "cover.png"
           no_options disc_asset);
    reflexivity.
Defined.

(** X11.  [drawCircularMask].  A negative radius makes [arc] throw an
    [IndexSizeError], and an element whose load failed makes [drawImage]
    throw an [InvalidStateError]: either way [restore] is not reached.
    Otherwise the call returns: the image, stretched over [size] x [size]
    from the origin, is composited onto the points of the circle that the
    canvas and the clip in force contain, and onto no other; an element
    that has not loaded, or without pixels, changes none.  The size of
    the canvas, the fill style, the clip and the stack of saved states
    are then as before the call. *)
Theorem X11_drawCircularMask_by_radius_and_image
    (ctx : context2d) (image : HTMLImageElement) (size centerX centerY radius : R) :
  (radius < 0 ->
     drawCircularMask ctx image size centerX centerY radius =
     Rejected (DOMException "IndexSizeError")) /\
  (0 <= radius -> state image = Broken ->
     drawCircularMask ctx image size centerX centerY radius =
     Rejected (DOMException "InvalidStateError")) /\
  (0 <= radius -> state image <> Broken ->
     exists ctx',
       drawCircularMask ctx image size centerX centerY radius = Resolved ctx' /\
       width ctx' = width ctx /\ height ctx' = height ctx /\
       fillStyle ctx' = fillStyle ctx /\ saved ctx' = saved ctx /\
       (forall p, clip_region ctx' p = clip_region ctx p) /\
       (forall p,
          pixels ctx' p =
          match decoded image with
          | Some im =>
              if ((naturalWidth im =? 0) || (naturalHeight im =? 0))%N then pixels ctx p
              else if in_canvas ctx p && clip_region ctx p &&
                      Rltb (dist2 p centerX centerY) (radius * radius) &&
                      in_rect 0 0 size size p
                   then over (stretched im 0 0 size size p) (pixels ctx p)
                   else pixels ctx p
          | None => pixels ctx p
          end)).
Proof.
  split; [|split].
  - intros Hneg. unfold drawCircularMask. cbn zeta.
    now rewrite (arc_negative _ _ _ false Hneg).
  - intros Hradius Hbroken. unfold drawCircularMask. cbn zeta.
    rewrite (arc_nonneg _ _ _ false Hradius). unfold drawImage. now rewrite Hbroken.
  - intros Hradius Hok. unfold drawCircularMask. cbn zeta.
    rewrite (arc_nonneg _ _ _ false Hradius).
    rewrite (@drawImage_not_broken _ image _ _ _ _ Hok).
    eexists. split; [reflexivity|].
    unfold composite. destruct (decoded image) as [im|].
    + destruct ((naturalWidth im =? 0) || (naturalHeight im =? 0))%N.
      * now repeat split.
      * repeat split.
        intros p. cbn -[in_rect in_path in_canvas stretched].
        rewrite single_turn_path. unfold in_circle. cbn [arc_x arc_y arc_radius].
        rewrite (@in_canvas_by_size _ ctx p) by reflexivity.
        now rewrite andb_assoc.
    + now repeat split.
Qed.

(** On a new canvas: a loaded element is drawn inside the circle, a
    broken one and a negative radius throw. *)
Lemma X11_witness_blank_canvas :
  (exists ctx',
     drawCircularMask (blank 300 300) preloaded 300 150 150 120 = Resolved ctx' /\
     width ctx' = 300%N /\ height ctx' = 300%N /\
     fillStyle ctx' = black /\ saved ctx' = [] /\
     (forall p, clip_region ctx' p = true) /\
     (forall p,
        pixels ctx' p =
        if in_canvas (blank 300 300) p && true &&
           Rltb (dist2 p 150 150) (120 * 120) && in_rect 0 0 300 300 p
        then over (stretched disc_asset 0 0 300 300 p) Clear
        else Clear)) /\
  drawCircularMask (blank 300 300) broken_image 300 150 150 120 =
    Rejected (DOMException "InvalidStateError") /\
  drawCircularMask (blank 300 300) preloaded 300 150 150 (-1) =
    Rejected (DOMException "IndexSizeError").
Proof.
  split; [|split].
  - apply (proj2 (proj2 (@X11_drawCircularMask_by_radius_and_image
                           (blank 300 300) preloaded 300 150 150 120)));
      [lra | discriminate].
  - apply (proj1 (proj2 (@X11_drawCircularMask_by_radius_and_image
                           (blank 300 300) broken_image 300 150 150 120)));
      [lra | reflexivity].
  - apply (proj1 (@X11_drawCircularMask_by_radius_and_image
                    (blank 300 300) preloaded 300 150 150 (-1))).
    lra.
Defined.

Lemma filter_keeps_older (n : nat) (l : list anchor) :
  Forall (fun m => (node_id m < n)%nat) l ->
  filter (fun m => negb (Nat.eqb (node_id m) n)) l = l.
Proof.
  induction 1 as [|m l Hm _ IH]; simpl; [reflexivity|].
  destruct (Nat.eqb_spec (node_id m) n) as [Heq|_]; [lia|].
  simpl. now rewrite IH.
Qed.

(** X12.  [downloadImage] clicks one link, whose [href] is the data URL
    and whose [download] is the file name given, ["playlist-cover.png"]
    when none is given (an empty file name is kept), and leaves the
    children of [document.body] as they were: the link it appends is
    removed again. *)
Theorem X12_downloadImage_leaves_the_body_as_it_was
    (doc : document) (dataUrl : data_url) (filename : option string)
    (Hdoc : well_formed doc) :
  body_children (fst (downloadImage doc dataUrl filename)) = body_children doc /\
  snd (downloadImage doc dataUrl filename) =
    [Clicked {| node_id := fresh doc;
                anchor_download :=
                  Some (match filename with
                        | Some f => f
                        | None => "playlist-cover.png"
                        end);
                anchor_href := Some dataUrl |}] /\
  well_formed (fst (downloadImage doc dataUrl filename)).
Proof.
  unfold downloadImage, createElement, appendChild, removeChild, well_formed in *.
  cbn [fst snd fresh body_children node_id anchor_download anchor_href].
  rewrite filter_app, (filter_keeps_older Hdoc). cbn [filter node_id].
  rewrite Nat.eqb_refl. cbn [negb]. rewrite app_nil_r.
  split; [reflexivity|]. split; [reflexivity|].
  eapply Forall_impl; [|exact Hdoc]. cbn beta. intros m Hm. lia.
Qed.

Lemma X12_witness_page :
  body_children (fst (downloadImage page DataEmpty (Some EmptyString))) =
    body_children page /\
  snd (downloadImage page DataEmpty (Some EmptyString)) =
    [Clicked {| node_id := 2; anchor_download := Some EmptyString;
                anchor_href := Some DataEmpty |}] /\
  well_formed (fst (downloadImage page DataEmpty (Some EmptyString))).
Proof.
  apply (@X12_downloadImage_leaves_the_body_as_it_was page DataEmpty (Some EmptyString)).
  unfold well_formed, page. cbn. repeat constructor.
Defined.

(** X14.  On a surface of 16 pixels or more the solid disc has its
    three bands clean: every point within [0.08 S] of the centre is white,
    every point of the surface at [0.4 S] or beyond is light gray, and
    every point between is the gray of the disc or of a texture mark. *)
Theorem X14_solid_disc_bands
    (S : N) (p : point)
    (HS : (16 <= S)%N)
    (Hp : on_surface S p = true) :
  let d2 := dist2 p (px S / 2) (px S / 2) in
  let disc := pixels (solidDiscSurface (blank S S) S) in
  (d2 < (px S * 0.08) * (px S * 0.08) -> disc p = Paint white) /\
  ((px S * 0.4) * (px S * 0.4) <= d2 -> disc p = Paint light_gray) /\
  ((px S * 0.08) * (px S * 0.08) <= d2 < (px S * 0.4) * (px S * 0.4) ->
     disc p = Paint darker_gray \/ disc p = Paint texture_gray).
Proof.
  intros d2 disc. subst disc.
  destruct (solidDiscSurface_is_solid_disc S) as (_ & _ & Hpix).
  rewrite Hpix. unfold solid_disc. rewrite Hp. fold d2.
  destruct (existsb (in_mark S p) (seq 0 20)) eqn:Hmark.
  - apply existsb_exists in Hmark. destruct Hmark as (i & _ & Hi).
    destruct (@mark_on_the_disc S p i HS Hi) as [Hlo Hhi]. fold d2 in Hlo, Hhi.
    split; [intros H; lra|]. split; [intros H; lra|]. intros _. now right.
  - split; [|split].
    + intros H. now rewrite Rltb_true.
    + intros H.
      assert (Hs : 0 <= px S) by (unfold px; apply IZR_le; lia).
      rewrite !Rltb_false; [reflexivity | lra | nra].
    + intros [Hlo Hhi]. rewrite Rltb_false by lra. rewrite Rltb_true by lra.
      now left.
Qed.

Lemma X14_witness_centre_of_300 :
  let d2 := dist2 (150, 150) (px 300 / 2) (px 300 / 2) in
  let disc := pixels (solidDiscSurface (blank 300 300) 300) in
  (d2 < (px 300 * 0.08) * (px 300 * 0.08) -> disc (150, 150) = Paint white) /\
  ((px 300 * 0.4) * (px 300 * 0.4) <= d2 -> disc (150, 150) = Paint light_gray) /\
  ((px 300 * 0.08) * (px 300 * 0.08) <= d2 < (px 300 * 0.4) * (px 300 * 0.4) ->
     disc (150, 150) = Paint darker_gray \/ disc (150, 150) = Paint texture_gray).
Proof.
  apply (@X14_solid_disc_bands 300 (150, 150)).
  - discriminate.
  - apply on_surface_300; lra.
Defined.

End CompositorExtras.
